(** * seismic-zfp: conversion of SEG-Y volumes to the SZ format

    A shallow embedding of [seismic_zfp/convert.py] and of the diagonal
    reconstruction loop of [examples/read-correlated-diagonal.py], with the
    properties of the format and of the two conversion strategies.  The
    timing and the printed progress of the conversions are left out.

    Python integers are [Z]; [len] of a sequence is the [Z] image of the list
    length; [bytes] and [bytearray] are [list byte]; numpy arrays are nested
    lists in C order (the first axis is the outer list).  Exceptions are the
    [Err] results of an error monad; the file system, the SEG-Y sources and
    the memory figures of the machine form an explicit [World]. *)

From Stdlib Require Import ZArith Lia.
From Stdlib.Strings Require Import Byte.
From stdpp Require Import base tactics option list gmap strings.

Local Open Scope Z_scope.

(** ** Exceptions and results *)

(** The exceptions which the modelled code can raise, under their Python
    names.  [SegyioError] stands for whatever [segyio.open] raises on a path
    it cannot open as a regular SEG-Y volume; [OSError] is what a read
    through an open segyio handle raises once the file has been truncated
    under it; [OutOfRangeLineIndex] is the failure the specification gives
    to diagonal addressing. *)
Inductive error : Set :=
  | IndexError
  | OverflowError
  | ZeroDivisionError
  | RuntimeError
  | NotImplementedError
  | SegyioError
  | OSError
  | OutOfRangeLineIndex.

Inductive result (A : Type) : Type :=
  | Ok (a : A)
  | Err (e : error).
Arguments Ok {A} a.
Arguments Err {A} e.

#[global] Instance result_ret : MRet result := fun _ a => Ok a.
#[global] Instance result_bind : MBind result := fun _ _ f m =>
  match m with
  | Ok a => f a
  | Err e => Err e
  end.

Definition is_ok {A} (r : result A) : bool :=
  match r with Ok _ => true | Err _ => false end.

(** ** Python primitives *)

Definition len {A} (l : list A) : Z := Z.of_nat (length l).

(** [a[i]] on a sequence: negative indices count from the end, anything out
    of range raises [IndexError]. *)
Definition getitem {A} (a : list A) (i : Z) : result A :=
  let j := if i <? 0 then i + len a else i in
  if j <? 0 then Err IndexError
  else match a !! Z.to_nat j with
       | Some x => Ok x
       | None => Err IndexError
       end.

(** [range(n)] *)
Definition range (n : Z) : list Z := seqZ 0 n.

(** [a // b] *)
Definition floordiv (a b : Z) : result Z :=
  if b =? 0 then Err ZeroDivisionError else Ok (a / b).

Definition byte_of_Z (z : Z) : byte :=
  default "000"%byte (Byte.of_N (Z.to_N (z mod 256))).

Definition Z_of_byte (b : byte) : Z := Z.of_N (Byte.to_N b).

Fixpoint little_endian (length : nat) (z : Z) : list byte :=
  match length with
  | O => []
  | S n => byte_of_Z z :: little_endian n (z / 256)
  end.

(** [z.to_bytes(length, byteorder='little')]: unsigned, so a negative [z] or
    one that needs more than [length] bytes raises [OverflowError]. *)
Definition to_bytes (z : Z) (length : nat) : result (list byte) :=
  if (0 <=? z) && (z <? 256 ^ Z.of_nat length)
  then Ok (little_endian length z)
  else Err OverflowError.

(** [int.from_bytes(bs, byteorder='little')], the reader's side of the
    integer fields. *)
Fixpoint from_bytes (bs : list byte) : Z :=
  match bs with
  | [] => 0
  | b :: bs' => Z_of_byte b + 256 * from_bytes bs'
  end.

(** [bytearray(n)] *)
Definition bytearray (n : Z) : list byte := replicate (Z.to_nat n) "000"%byte.

(** [buffer[i:j]] for non-negative bounds. *)
Definition slice {A} (buffer : list A) (i j : nat) : list A :=
  take (j - i) (drop i buffer).

(** [buffer[i:j] = v] on a bytearray, for non-negative bounds: the bytes from
    [i] up to [j] are replaced by [v], whatever the length of [v]. *)
Definition slice_assign (buffer : list byte) (i j : nat) (v : list byte) : list byte :=
  take i buffer ++ v ++ drop (i `max` j)%nat buffer.

(** ** Collaborators *)

(** The numpy scalars of the axis vectors ([segyfile.samples],
    [segyfile.xlines], [segyfile.ilines]) with their subtraction, and the
    float32 voxels of the trace data with the value [np.zeros] fills with. *)
Class Numpy : Type := {
  scalar : Type;
  scalar_sub : scalar -> scalar -> scalar;
  voxel : Type;
  voxel_zero : voxel;
}.

(** [seismic_zfp/utils.py] is not part of the sources at hand.  Its helper
    [np_float_to_bytes], which [make_header] uses for the six geometry
    values, is a parameter of the development; the format fixes its output
    to 4 bytes ([np_float_to_bytes_4]). *)
Class Utils `{Numpy} : Type := {
  np_float_to_bytes : scalar -> list byte;
}.

Definition np_float_to_bytes_4 `{Utils} : Prop :=
  forall x : scalar, length (np_float_to_bytes x) = 4%nat.

(** A 3-dimensional float32 array, axes (inline, crossline, sample). *)
Abbreviation ndarray2 := (list (list voxel)).
Abbreviation ndarray3 := (list (list (list voxel))).

(** [pyzfp.compress(array, rate=...)], opaque. *)
Class Codec `{Numpy} : Type := {
  compress : ndarray3 -> Z -> list byte;
}.

(** What [segyio.open] gives access to: the three axis vectors and the
    inline mode [segyfile.iline[number]], which returns the plane of the
    inline with that number, of shape (crosslines, samples). *)
Record SegyFile `{Numpy} : Type := {
  samples : list scalar;
  xlines : list scalar;
  ilines : list scalar;
  iline : scalar -> ndarray2;
}.

(** A path holds a SEG-Y volume with regular geometry, a SEG-Y file which
    [segyio.open] rejects, plain bytes, or a file which has been opened for
    writing and not closed.  The writes to a file object are buffered: of
    the bytes [written] to an unclosed file the disk holds some prefix,
    which may be empty, until the file object is closed or finalised. *)
Inductive file `{Numpy} : Type :=
  | Segy (f : SegyFile)
  | BadSegy
  | Raw (content : list byte)
  | Unclosed (written : list byte).

(** [psutil.virtual_memory()] *)
Record svmem : Set := {
  total : Z;
  available : Z;
}.

Record World `{Numpy} : Type := {
  disk : gmap string file;
  virtual_memory : svmem;
}.

Section Convert.
Context {N : Numpy} {U : Utils} {C : Codec}.

Definition segyio_open (w : World) (filename : string) : result SegyFile :=
  match disk w !! filename with
  | Some (Segy f) => Ok f
  | _ => Err SegyioError
  end.

(** [open(filename, 'wb')], the writes, and the close. *)
Definition write_file (w : World) (filename : string) (content : list byte) : World :=
  {| disk := <[filename := Raw content]> (disk w);
     virtual_memory := virtual_memory w |}.

(** [open(filename, 'wb')] and the writes, without the close. *)
Definition unclosed_file (w : World) (filename : string) (written : list byte)
  : World :=
  {| disk := <[filename := Unclosed written]> (disk w);
     virtual_memory := virtual_memory w |}.

(** ** The header *)

Definition DISK_BLOCK_BYTES : Z := 4096.

Definition make_header (w : World) (in_filename : string) (bits_per_voxel : Z)
  : result (list byte) :=
  let header_blocks := 1 in
  let buffer := bytearray (DISK_BLOCK_BYTES * header_blocks) in
  v ← to_bytes header_blocks 4;
  let buffer := slice_assign buffer 0 4 v in
  segyfile ← segyio_open w in_filename;
  v ← to_bytes (len (samples segyfile)) 4;
  let buffer := slice_assign buffer 4 8 v in
  v ← to_bytes (len (xlines segyfile)) 4;
  let buffer := slice_assign buffer 8 12 v in
  v ← to_bytes (len (ilines segyfile)) 4;
  let buffer := slice_assign buffer 12 16 v in
  s0 ← getitem (samples segyfile) 0;
  let buffer := slice_assign buffer 16 20 (np_float_to_bytes s0) in
  x0 ← getitem (xlines segyfile) 0;
  let buffer := slice_assign buffer 20 24 (np_float_to_bytes x0) in
  i0 ← getitem (ilines segyfile) 0;
  let buffer := slice_assign buffer 24 28 (np_float_to_bytes i0) in
  s1 ← getitem (samples segyfile) 1;
  s0 ← getitem (samples segyfile) 0;
  let buffer := slice_assign buffer 28 32 (np_float_to_bytes (scalar_sub s1 s0)) in
  x1 ← getitem (xlines segyfile) 1;
  x0 ← getitem (xlines segyfile) 0;
  let buffer := slice_assign buffer 32 36 (np_float_to_bytes (scalar_sub x1 x0)) in
  i1 ← getitem (ilines segyfile) 1;
  i0 ← getitem (ilines segyfile) 0;
  let buffer := slice_assign buffer 36 40 (np_float_to_bytes (scalar_sub i1 i0)) in
  v ← to_bytes bits_per_voxel 4;
  let buffer := slice_assign buffer 40 44 v in
  Ok buffer.

(** ** Padding *)

(** Modelled from the spec: [pad] of [seismic_zfp/utils.py] is missing from
    the sources at hand.  It rounds a dimension up to its required multiple:
    the result is the least multiple of [multiple] that is not below [orig].
    Zero has no such multiple for a positive [orig], and the remainder that
    decides whether [orig] is aligned is a division by zero. *)
Definition pad (orig multiple : Z) : result Z :=
  if multiple =? 0 then Err ZeroDivisionError
  else if orig mod multiple =? 0 then Ok orig
  else Ok (multiple * (orig / multiple + 1)).

(** [a.shape] of a rectangular nested list.  A numpy array keeps its shape
    when an outer axis is empty, a nested list does not: the inner extents
    are read off the first element, and are 0 when there is none. *)
Definition shape2 (a : ndarray2) : Z * Z :=
  (len a, len (default [] (head a))).

Definition shape3 (a : ndarray3) : Z * Z * Z :=
  (len a, len (default [] (head a)), len (default [] (head (default [] (head a))))).

(** [np.zeros(shape, dtype=np.float32)] *)
Definition zeros1 (n : Z) : list voxel := replicate (Z.to_nat n) voxel_zero.
Definition zeros2 (shape : Z * Z) : ndarray2 :=
  replicate (Z.to_nat shape.1) (zeros1 shape.2).
Definition zeros3 (shape : Z * Z * Z) : ndarray3 :=
  replicate (Z.to_nat shape.1.1) (zeros2 (shape.1.2, shape.2)).

(** [row[0:n] = data], [plane[0:m, 0:n] = data] and [a[0:k, 0:m, 0:n] = data]
    where [data] has the shape of the region assigned to, which numpy
    requires. *)
Definition assign1 (row : list voxel) (n : Z) (data : list voxel) : list voxel :=
  take (Z.to_nat n) data ++ drop (Z.to_nat n) row.

Definition assign2 (plane : ndarray2) (m n : Z) (data : ndarray2) : ndarray2 :=
  zip_with (fun row d => assign1 row n d)
           (take (Z.to_nat m) plane) (take (Z.to_nat m) data)
  ++ drop (Z.to_nat m) plane.

Definition assign3 (a : ndarray3) (k m n : Z) (data : ndarray3) : ndarray3 :=
  zip_with (fun plane d => assign2 plane m n d)
           (take (Z.to_nat k) a) (take (Z.to_nat k) data)
  ++ drop (Z.to_nat k) a.

(** [a[i, 0:m, 0:n] = data] for an index [i] taken from a range, hence not
    negative: beyond the last plane numpy raises [IndexError]. *)
Definition assign_plane (a : ndarray3) (i m n : Z) (data : ndarray2)
  : result ndarray3 :=
  match a !! Z.to_nat i with
  | Some plane => Ok (<[Z.to_nat i := assign2 plane m n data]> a)
  | None => Err IndexError
  end.

(** ** Whole-volume conversion *)

(** [segyio.tools.cube(filename)]: the volume as one array, inline by
    inline. *)
Definition cube (w : World) (filename : string) : result ndarray3 :=
  segyfile ← segyio_open w filename;
  Ok (iline segyfile <$> ilines segyfile).

Definition cube_bytes (segyfile : SegyFile) : Z :=
  len (samples segyfile) * len (xlines segyfile) * len (ilines segyfile) * 4.

(** The tuple which both strategies compute as [padded_shape], from the
    shape of the data and the bits per voxel. *)
Definition padded_shape (shape : Z * Z * Z) (bits_per_voxel : Z)
  : result (Z * Z * Z) :=
  p0 ← pad shape.1.1 4;
  p1 ← pad shape.1.2 4;
  multiple ← floordiv 2048 bits_per_voxel;
  p2 ← pad shape.2 multiple;
  Ok (p0, p1, p2).

(** The array [data_padded] of [convert_segy_inmem]: zeros of the padded
    shape, with [data] assigned to the corner at the origin. *)
Definition data_padded (data : ndarray3) (bits_per_voxel : Z) : result ndarray3 :=
  padded_shape ← padded_shape (shape3 data) bits_per_voxel;
  let data_padded := zeros3 padded_shape in
  Ok (assign3 data_padded (shape3 data).1.1 (shape3 data).1.2 (shape3 data).2 data).

(** The part of [convert_segy_inmem] between the memory guard and the
    opening of the output file: header and compressed payload. *)
Definition inmem_payload (w : World) (in_filename : string) (bits_per_voxel : Z)
  : result (list byte * list byte) :=
  header ← make_header w in_filename bits_per_voxel;
  data ← cube w in_filename;
  data_padded ← data_padded data bits_per_voxel;
  let compressed := compress data_padded bits_per_voxel in
  Ok (header, compressed).

Definition convert_segy_inmem (w : World) (in_filename out_filename : string)
    (bits_per_voxel : Z) : result unit * World :=
  match segyio_open w in_filename with
  | Err e => (Err e, w)
  | Ok segyfile =>
      if cube_bytes segyfile >? total (virtual_memory w)
      then (Err RuntimeError, w)
      else match inmem_payload w in_filename bits_per_voxel with
           | Err e => (Err e, w)
           | Ok (header, compressed) =>
               (Ok (), write_file w out_filename (header ++ compressed))
           end
  end.

(** ** Streaming conversion *)

(** The inner loop of [produce]: [planes] are the values of [i] still to
    come. *)
Fixpoint read_planes (segyfile : SegyFile) (n_xlines trace_length plane_set_id : Z)
    (planes : list Z) (segy_buffer : ndarray3) : result ndarray3 :=
  match planes with
  | [] => Ok segy_buffer
  | i :: planes' =>
      number ← getitem (ilines segyfile) (plane_set_id * 4 + i);
      let data := iline segyfile number in
      segy_buffer ← assign_plane segy_buffer i n_xlines trace_length data;
      read_planes segyfile n_xlines trace_length plane_set_id planes' segy_buffer
  end.

(** The outer loop of [produce]: the buffers put on the queue, in order, and
    how the loop ended. *)
Fixpoint produce_loop (segyfile : SegyFile) (n_ilines n_xlines trace_length : Z)
    (padded_shape : Z * Z * Z) (plane_sets : list Z) : list ndarray3 * result unit :=
  match plane_sets with
  | [] => ([], Ok ())
  | plane_set_id :: plane_sets' =>
      let segy_buffer := zeros3 (4, padded_shape.1.2, padded_shape.2) in
      let planes_to_read :=
        if (plane_set_id + 1) * 4 >? n_ilines then n_ilines mod 4 else 4 in
      match read_planes segyfile n_xlines trace_length plane_set_id
              (range planes_to_read) segy_buffer with
      | Err e => ([], Err e)
      | Ok segy_buffer =>
          let '(queued, outcome) :=
            produce_loop segyfile n_ilines n_xlines trace_length padded_shape
              plane_sets' in
          (segy_buffer :: queued, outcome)
      end
  end.

Definition produce_setup (w : World) (in_filename : string) (bits_per_voxel : Z)
  : result (SegyFile * Z * (Z * Z * Z)) :=
  segyfile ← segyio_open w in_filename;
  number ← getitem (ilines segyfile) 0;
  let test_slice := iline segyfile number in
  let trace_length := (shape2 test_slice).2 in
  let n_xlines := len (xlines segyfile) in
  let n_ilines := len (ilines segyfile) in
  padded_shape ← padded_shape (n_ilines, n_xlines, trace_length) bits_per_voxel;
  Ok (segyfile, trace_length, padded_shape).

(** [produce]: every [await queue.put(segy_buffer)] appends to the list of
    the buffers queued; an exception ends the coroutine with the buffers
    queued so far. *)
Definition produce (w : World) (in_filename : string) (bits_per_voxel : Z)
  : list ndarray3 * result unit :=
  match produce_setup w in_filename bits_per_voxel with
  | Err e => ([], Err e)
  | Ok (segyfile, trace_length, padded_shape) =>
      produce_loop segyfile (len (ilines segyfile)) (len (xlines segyfile))
        trace_length padded_shape (range (padded_shape.1.1 / 4))
  end.

(** [asyncio.Queue(maxsize=16)] *)
Definition QUEUE_MAXSIZE : nat := 16.

(** The producer runs without suspending while the queue has room:
    [queue.put] only waits on a full queue.  The result is what is still to
    be put, and the queue. *)
Fixpoint producer_turn (pending queue : list ndarray3) : list ndarray3 * list ndarray3 :=
  match pending with
  | [] => ([], queue)
  | segy_buffer :: pending' =>
      if decide (length queue < QUEUE_MAXSIZE)%nat
      then producer_turn pending' (queue ++ [segy_buffer])
      else (pending, queue)
  end.

(** The loop of [consume], from one suspension at [queue.get] to the next,
    when the queue is found empty: [f] is what has been written to the
    output file, which starts with the header. *)
Fixpoint consume (bits_per_voxel : Z) (queue : list ndarray3) (f : list byte)
  : list byte :=
  match queue with
  | [] => f
  | segy_buffer :: queue' =>
      let compressed := compress segy_buffer bits_per_voxel in
      consume bits_per_voxel queue' (f ++ compressed)
  end.

(** The event loop running the two coroutines in turn: the producer until it
    waits on the full queue or has finished, then the consumer until it
    waits on the empty queue.  Each round queues at least one buffer, so
    [fuel] above the number of pending buffers is never used up. *)
Fixpoint event_loop (fuel : nat) (bits_per_voxel : Z)
    (pending queue : list ndarray3) (f : list byte) : list byte :=
  match fuel with
  | O => f
  | S fuel' =>
      let '(pending', queue') := producer_turn pending queue in
      let f' := consume bits_per_voxel queue' f in
      match pending' with
      | [] => f'
      | _ :: _ => event_loop fuel' bits_per_voxel pending' [] f'
      end
  end.

(** [run]: a failure of [make_header] comes before the consumer is
    scheduled.  After that the scheduled consumer gets its turns whether
    [produce] completes or raises: it opens the output file, writes the
    header and then what it finds on the queue.

    When [produce] completes, [run] waits until the queue has been emptied
    and cancels the consumer, which closes the file as it leaves its [with]
    block.  When [produce] raises, the consumer still gets the turn it was
    scheduled for, but it is not cancelled and the file is not closed
    before the exception reaches the caller: the output file is left
    unclosed.

    [produce] reads from the source all along, and the consumer opens the
    output file, truncating it, at its first turn: that is once [produce]
    has completed, or when it first waits on the full queue, with 16
    buffers queued and the 17th read and about to be put.  When the output
    path is the source path and there are more than 17 buffers, the source
    is thereby truncated under the producer, whose read for the 18th buffer
    fails with [OSError]; the consumer has then written the header and 17
    buffers. *)
Definition run (w : World) (in_filename out_filename : string) (bits_per_voxel : Z)
  : result unit * World :=
  match make_header w in_filename bits_per_voxel with
  | Err e => (Err e, w)
  | Ok header =>
      let '(queued, outcome) := produce w in_filename bits_per_voxel in
      if decide (in_filename = out_filename
                 /\ (S QUEUE_MAXSIZE < length queued)%nat)
      then
        let f := consume bits_per_voxel (take (S QUEUE_MAXSIZE) queued) header in
        (Err OSError, unclosed_file w out_filename f)
      else
        let f := event_loop (S (length queued)) bits_per_voxel queued [] header in
        match outcome with
        | Ok _ => (Ok (), write_file w out_filename f)
        | Err e => (Err e, unclosed_file w out_filename f)
        end
  end.

Definition convert_segy_stream (w : World) (in_filename out_filename : string)
    (bits_per_voxel : Z) : result unit * World :=
  run w in_filename out_filename bits_per_voxel.

(** ** The entry point *)

Definition convert_segy (w : World) (in_filename out_filename : string)
    (bits_per_voxel : Z) (method : string) : result unit * World :=
  if decide (method = "InMemory") then
    convert_segy_inmem w in_filename out_filename bits_per_voxel
  else if decide (method = "Stream") then
    convert_segy_stream w in_filename out_filename bits_per_voxel
  else (Err NotImplementedError, w).

End Convert.

(** ** Correlated diagonals *)

(** Modelled from the spec: [get_correlated_diagonal_length] of
    [seismic_zfp/utils.py] is missing from the sources at hand.  For a line
    index [l] in the valid range from [-(X-1)] to [I-1] the length is
    [min(I - l, X)] when [l >= 0] and [min(I, X + l)] when [l < 0]; outside
    that range the addressing fails with [OutOfRangeLineIndex]. *)
Definition get_correlated_diagonal_length (l n_il n_xl : Z) : result Z :=
  if (- (n_xl - 1) <=? l) && (l <=? n_il - 1) then
    if l >=? 0 then Ok (Z.min (n_il - l) n_xl) else Ok (Z.min n_il (n_xl + l))
  else Err OutOfRangeLineIndex.

(** The trace numbers which the loop of [read-correlated-diagonal.py] reads
    for line [l], in the order of the rows of [slice_segy]. *)
Definition diagonal_trace_numbers (l n_il n_xl : Z) : result (list Z) :=
  diagonal_length ← get_correlated_diagonal_length l n_il n_xl;
  if l >=? 0
  then Ok (map (fun d => (d + l) * n_xl + d) (range diagonal_length))
  else Ok (map (fun d => d * n_xl + d - l) (range diagonal_length)).

(** Traces of an inline-sorted volume are numbered inline by inline: trace
    [t] lies on the inline at position [t // n_xl] and on the crossline at
    position [t % n_xl]. *)
Definition trace_coordinates (n_xl t : Z) : Z * Z := (t / n_xl, t mod n_xl).

Definition diagonal_coordinates (l n_il n_xl : Z) : result (list (Z * Z)) :=
  numbers ← diagonal_trace_numbers l n_il n_xl;
  Ok (map (trace_coordinates n_xl) numbers).

(** [segyfile.trace[t]]: the traces of an inline-sorted volume in the order
    of the file, inline by inline and crossline by crossline. *)
Definition trace `{Numpy} (f : SegyFile) (t : Z) : result (list voxel) :=
  getitem (concat (iline f <$> ilines f)) t.

(** [slice_segy[d, :] = data] for an index [d] taken from a range, where
    [data] has the length of the row, which numpy requires. *)
Definition assign_row `{Numpy} (a : ndarray2) (d : Z) (data : list voxel)
  : result ndarray2 :=
  match a !! Z.to_nat d with
  | Some row => Ok (<[Z.to_nat d := assign1 row (len row) data]> a)
  | None => Err IndexError
  end.

(** The loop over [d] of [read-correlated-diagonal.py], for either sign of
    [l]: [index d] is the number of the trace read into row [d]. *)
Fixpoint read_diagonal `{Numpy} (f : SegyFile) (index : Z -> Z) (ds : list Z)
    (slice_segy : ndarray2) : result ndarray2 :=
  match ds with
  | [] => Ok slice_segy
  | d :: ds' =>
      data ← trace f (index d);
      slice_segy ← assign_row slice_segy d data;
      read_diagonal f index ds' slice_segy
  end.

(** The body of the loop over the lines: the array [slice_segy] for line
    [l]. *)
Definition slice_segy `{Numpy} (f : SegyFile) (l : Z) : result ndarray2 :=
  diagonal_length ←
    get_correlated_diagonal_length l (len (ilines f)) (len (xlines f));
  let slice_segy := zeros2 (diagonal_length, len (samples f)) in
  if l >=? 0
  then read_diagonal f (fun d => (d + l) * len (xlines f) + d)
         (range diagonal_length) slice_segy
  else read_diagonal f (fun d => d * len (xlines f) + d - l)
         (range diagonal_length) slice_segy.

(** The loop over the lines: [slice_segy] is bound anew for every line, and
    is unbound ([None]) before the first. *)
Fixpoint read_lines `{Numpy} (f : SegyFile) (lines : list Z)
    (bound : option ndarray2) : result (option ndarray2) :=
  match lines with
  | [] => Ok bound
  | l :: lines' =>
      slice_segy ← slice_segy f l;
      read_lines f lines' (Some slice_segy)
  end.

(** The part of the script which reads the SEG-Y volume: the value of
    [slice_segy] which the image is made of, after the 40 lines from
    [LINE_NO] have been read. *)
Definition read_correlated_diagonal `{Numpy} (w : World) (path : string)
    (LINE_NO : Z) : result (option ndarray2) :=
  segyfile ← segyio_open w path;
  read_lines segyfile (seqZ LINE_NO 40) None.

(** ** Shapes

    A nested list is an array of a given shape when its rows have equal
    lengths at every level; a volume opened by segyio is regular: every
    inline plane has the shape (crosslines, samples). *)

Definition has_shape2 `{Numpy} (a : ndarray2) (shape : Z * Z) : Prop :=
  len a = shape.1 /\ Forall (fun row => len row = shape.2) a.

Definition has_shape3 `{Numpy} (a : ndarray3) (shape : Z * Z * Z) : Prop :=
  len a = shape.1.1 /\ Forall (fun plane => has_shape2 plane (shape.1.2, shape.2)) a.

Definition regular `{Numpy} (f : SegyFile) : Prop :=
  Forall (fun number =>
            has_shape2 (iline f number) (len (xlines f), len (samples f)))
         (ilines f).

(** The volume of a file as one array, and the closed form of a volume
    padded with zeros to the shape [p]. *)
Definition volume `{Numpy} (f : SegyFile) : ndarray3 := iline f <$> ilines f.

Definition padded_volume `{Numpy} (data : ndarray3) (m n : Z) (p : Z * Z * Z)
  : ndarray3 :=
  ((fun plane => assign2 (zeros2 (p.1.2, p.2)) m n plane) <$> data)
  ++ replicate (Z.to_nat (p.1.1 - len data)) (zeros2 (p.1.2, p.2)).

(** The [k]-th group of 4 planes of a volume. *)
Definition plane_set `{Numpy} (a : ndarray3) (k : Z) : ndarray3 :=
  take 4 (drop (Z.to_nat (4 * k)) a).

(** [a[i, x, s]] *)
Definition voxel_at `{Numpy} (a : ndarray3) (i x s : nat) : option voxel :=
  plane ← a !! i; row ← plane !! x; row !! s.

(** The trace of a volume at the inline position [i] and the crossline
    position [x], empty when the volume has no such position. *)
Definition grid_trace `{Numpy} (f : SegyFile) (i x : Z) : list voxel :=
  default [] (volume f !! Z.to_nat i ≫= (.!! Z.to_nat x)).

(** The codec compresses a volume group of 4 inlines by group of 4 inlines:
    the compressed stream of a sequence of groups is the sequence of their
    compressed streams.  zfp at a fixed rate works that way. *)
Definition groupwise `{Codec} : Prop :=
  forall (groups : list ndarray3) (rate : Z),
    groups <> [] ->
    Forall (fun group => length group = 4%nat) groups ->
    compress (concat groups) rate
    = concat ((fun group => compress group rate) <$> groups).

(** The codec works at the fixed rate [rate], as zfp does in its fixed-rate
    mode: an array made of whole blocks of 4 x 4 x 4 voxels compresses to
    [64 * rate] bits, which are [8 * rate] bytes, for each of its blocks.
    Nothing is asked of arrays which are not made of whole blocks. *)
Definition fixed_rate `{Codec} (rate : Z) : Prop :=
  forall (a : ndarray3) (shape : Z * Z * Z),
    has_shape3 a shape ->
    shape.1.1 mod 4 = 0 -> shape.1.2 mod 4 = 0 -> shape.2 mod 4 = 0 ->
    len (compress a rate)
    = shape.1.1 / 4 * (shape.1.2 / 4) * (shape.2 / 4) * (8 * rate).

(** ** Stand-ins for the collaborators

    Integer scalars and voxels, a 4-byte little-endian [np_float_to_bytes],
    a lossless codec writing one byte per voxel, and a codec which frames
    each compressed stream with the number of planes it holds. *)

Definition numpy_Z : Numpy :=
  {| scalar := Z; scalar_sub := Z.sub; voxel := Z; voxel_zero := 0 |}.

Definition utils_Z : @Utils numpy_Z :=
  @Build_Utils numpy_Z (little_endian 4).

Definition voxel_bytes (a : list (list (list Z))) : list byte :=
  concat (map (fun plane => concat (map (map byte_of_Z) plane)) a).

Definition lossless_codec : @Codec numpy_Z :=
  @Build_Codec numpy_Z (fun a _ => voxel_bytes a).

Definition framed_codec : @Codec numpy_Z :=
  @Build_Codec numpy_Z (fun a _ => byte_of_Z (len a) :: voxel_bytes a).

(** A codec of a fixed rate: of the bytes of the lossless codec, one for
    each voxel, it keeps [8 * rate] for every 64 voxels, the first ones of
    the array, and fills up with zero bytes when there are fewer. *)
Definition block_codec : @Codec numpy_Z :=
  @Build_Codec numpy_Z
    (fun a rate =>
       let n := (len (voxel_bytes a) / 64 * (8 * rate))%Z in
       take (Z.to_nat n) (voxel_bytes a)
       ++ replicate (Z.to_nat n - length (voxel_bytes a)) "000"%byte).

(** A survey of [n_il] inlines numbered from 10, 3 crosslines and 2 samples
    per trace. *)
Definition survey (n_il : Z) : @SegyFile numpy_Z :=
  @Build_SegyFile numpy_Z [0; 4] [1; 2; 3] (seqZ 10 n_il)
    (fun number => replicate 3 [number; number + 1]).

Definition machine (f : @file numpy_Z) (total available : Z) : @World numpy_Z :=
  @Build_World numpy_Z {[ "in.segy"%string := f ]}
    {| total := total; available := available |}.

(** The size of the closed file of bytes at a path, 0 when there is none. *)
Definition file_size (w : @World numpy_Z) (filename : string) : Z :=
  match disk w !! filename with
  | Some (Raw content) => len content
  | _ => 0
  end.

(** ** Domains

    The geometry which the header can hold: at least two values on every
    axis, whose difference is the increment, and counts which fit the
    unsigned 32-bit fields. *)

Definition uint32 (z : Z) : Prop := 0 <= z < 2 ^ 32.

Definition encodable `{Numpy} (f : SegyFile) : Prop :=
  2 <= len (samples f) < 2 ^ 32
  /\ 2 <= len (xlines f) < 2 ^ 32
  /\ 2 <= len (ilines f) < 2 ^ 32.

(** The header as a sequence of 4-byte fields, followed by the reserved
    bytes. *)
Definition header_fields `{Utils} (f : SegyFile) (bits_per_voxel : Z)
    (s0 s1 x0 x1 i0 i1 : scalar) : list (list byte) :=
  [ little_endian 4 1;
    little_endian 4 (len (samples f));
    little_endian 4 (len (xlines f));
    little_endian 4 (len (ilines f));
    np_float_to_bytes s0;
    np_float_to_bytes x0;
    np_float_to_bytes i0;
    np_float_to_bytes (scalar_sub s1 s0);
    np_float_to_bytes (scalar_sub x1 x0);
    np_float_to_bytes (scalar_sub i1 i0);
    little_endian 4 bits_per_voxel ].

Definition header_bytes `{Utils} (f : SegyFile) (bits_per_voxel : Z)
    (s0 s1 x0 x1 i0 i1 : scalar) : list byte :=
  concat (header_fields f bits_per_voxel s0 s1 x0 x1 i0 i1)
  ++ replicate 4052 "000"%byte.

(** * Properties *)

(** ** Correlated diagonals *)

Lemma diagonal_length_valid (l n_il n_xl : Z) :
  - (n_xl - 1) <= l <= n_il - 1 ->
  get_correlated_diagonal_length l n_il n_xl
  = Ok (if l >=? 0 then Z.min (n_il - l) n_xl else Z.min n_il (n_xl + l)).
Proof.
  intros Hl. unfold get_correlated_diagonal_length.
  replace ((- (n_xl - 1) <=? l) && (l <=? n_il - 1)) with true
    by (symmetry; apply andb_true_intro; split; apply Z.leb_le; lia).
  by destruct (l >=? 0).
Qed.

Lemma trace_coordinates_row (n_xl i x : Z) :
  0 <= x < n_xl -> trace_coordinates n_xl (i * n_xl + x) = (i, x).
Proof.
  intros Hx. unfold trace_coordinates. f_equal.
  - symmetry. apply Z.div_unique_pos with (r := x); lia.
  - symmetry. apply Z.mod_unique_pos with (q := i); lia.
Qed.

Lemma diagonal_coordinates_valid (l n_il n_xl : Z) :
  - (n_xl - 1) <= l <= n_il - 1 ->
  diagonal_coordinates l n_il n_xl
  = Ok (map (fun d => (d + Z.max l 0, d + Z.max (- l) 0))
          (range (if l >=? 0 then Z.min (n_il - l) n_xl
                  else Z.min n_il (n_xl + l)))).
Proof.
  intros Hl. unfold diagonal_coordinates, diagonal_trace_numbers.
  rewrite diagonal_length_valid by done. simpl.
  destruct (l >=? 0) eqn:Hsign; simpl; f_equal; rewrite map_map;
    apply map_ext_in; intros d Hd; apply list_elem_of_In, elem_of_seqZ in Hd.
  - apply Z.geb_le in Hsign.
    rewrite Z.max_l, Z.max_r by lia. rewrite Z.add_0_r.
    apply trace_coordinates_row. lia.
  - rewrite Z.geb_leb in Hsign. apply Z.leb_gt in Hsign.
    rewrite Z.max_r, Z.max_l by lia. rewrite Z.add_0_r.
    replace (d * n_xl + d - l) with (d * n_xl + (d + - l)) by lia.
    apply trace_coordinates_row. lia.
Qed.

(** C3: for [I >= 1], [X >= 1] and a line index [l] from [-(X-1)] to [I-1],
    the diagonal length is [min(I - l, X)] when [l >= 0] and [min(I, X + l)]
    when [l < 0]; it is the number of coordinate pairs which the addressing
    produces for [l], and these are all the grid positions on the diagonal
    ([d] is below the length exactly when inline [d + max(l,0)] and
    crossline [d + max(-l,0)] are on the grid); it is at least 1, and is 1
    at the two boundary indices. *)
Theorem diagonal_length_law (l n_il n_xl : Z) :
  1 <= n_il -> 1 <= n_xl -> - (n_xl - 1) <= l <= n_il - 1 ->
  exists n coordinates,
    get_correlated_diagonal_length l n_il n_xl = Ok n
    /\ (0 <= l -> n = Z.min (n_il - l) n_xl)
    /\ (l < 0 -> n = Z.min n_il (n_xl + l))
    /\ diagonal_coordinates l n_il n_xl = Ok coordinates
    /\ len coordinates = n
    /\ (forall d, 0 <= d < n <->
                  0 <= d /\ d + Z.max l 0 < n_il /\ d + Z.max (- l) 0 < n_xl)
    /\ 1 <= n
    /\ get_correlated_diagonal_length (n_il - 1) n_il n_xl = Ok 1
    /\ get_correlated_diagonal_length (- (n_xl - 1)) n_il n_xl = Ok 1.
Proof.
  intros HI HX Hl. eexists _, _.
  split; [by apply diagonal_length_valid|].
  split; [intros; destruct (Z.geb_spec l 0); lia|].
  split; [intros; destruct (Z.geb_spec l 0); lia|].
  split; [by apply diagonal_coordinates_valid|].
  split.
  { unfold len, range. rewrite length_map, length_seqZ.
    destruct (Z.geb_spec l 0); lia. }
  split; [intros d; destruct (Z.geb_spec l 0); lia|].
  split; [destruct (Z.geb_spec l 0); lia|].
  split.
  - rewrite diagonal_length_valid by lia.
    destruct (Z.geb_spec (n_il - 1) 0); f_equal; lia.
  - rewrite diagonal_length_valid by lia.
    destruct (Z.geb_spec (- (n_xl - 1)) 0); f_equal; lia.
Qed.

Lemma diagonal_length_law_witness :
  exists n coordinates,
    get_correlated_diagonal_length 4 10 6 = Ok n
    /\ (0 <= 4 -> n = Z.min (10 - 4) 6)
    /\ (4 < 0 -> n = Z.min 10 (6 + 4))
    /\ diagonal_coordinates 4 10 6 = Ok coordinates
    /\ len coordinates = n
    /\ (forall d, 0 <= d < n <->
                  0 <= d /\ d + Z.max 4 0 < 10 /\ d + Z.max (- 4) 0 < 6)
    /\ 1 <= n
    /\ get_correlated_diagonal_length (10 - 1) 10 6 = Ok 1
    /\ get_correlated_diagonal_length (- (6 - 1)) 10 6 = Ok 1.
Proof. apply (diagonal_length_law 4 10 6); lia. Defined.

(** C2: for a line index [l] from [-(X-1)] to [I-1] and every position [d]
    below the diagonal length, the [d]-th coordinate pair of the diagonal,
    in the order in which the traces are read, is
    [(d + max(l,0), d + max(-l,0))]; for [I = 10], [X = 6], [l = 2] the
    pairs are (2,0), (3,1), (4,2), (5,3), (6,4), (7,5). *)
Theorem diagonal_coordinates_correct :
  (forall l n_il n_xl n d,
      - (n_xl - 1) <= l <= n_il - 1 ->
      get_correlated_diagonal_length l n_il n_xl = Ok n ->
      0 <= d < n ->
      exists coordinates,
        diagonal_coordinates l n_il n_xl = Ok coordinates
        /\ coordinates !! Z.to_nat d = Some (d + Z.max l 0, d + Z.max (- l) 0))
  /\ diagonal_coordinates 2 10 6
     = Ok [(2, 0); (3, 1); (4, 2); (5, 3); (6, 4); (7, 5)].
Proof.
  split; [|reflexivity].
  intros l n_il n_xl n d Hl Hn Hd.
  rewrite diagonal_length_valid in Hn by done. injection Hn as Hn.
  eexists. split; [by apply diagonal_coordinates_valid|].
  rewrite Hn, list_lookup_fmap. unfold range.
  rewrite lookup_seqZ_lt by lia. simpl. do 3 f_equal; lia.
Qed.

Lemma diagonal_coordinates_correct_witness :
  exists coordinates,
    diagonal_coordinates (-3) 10 6 = Ok coordinates
    /\ coordinates !! Z.to_nat 2 = Some (2 + Z.max (-3) 0, 2 + Z.max (- -3) 0).
Proof.
  apply (proj1 diagonal_coordinates_correct (-3) 10 6 3 2);
    [lia | reflexivity | lia].
Defined.

(** ** Integers as bytes *)

Lemma Z_of_byte_of_Z (z : Z) : Z_of_byte (byte_of_Z z) = z mod 256.
Proof.
  unfold Z_of_byte, byte_of_Z.
  assert (Hr : 0 <= z mod 256 < 256) by (apply Z.mod_pos_bound; lia).
  destruct (Byte.of_N (Z.to_N (z mod 256))) as [b|] eqn:Hb; simpl.
  - apply Byte.to_of_N in Hb. rewrite Hb. lia.
  - apply Byte.of_N_None_iff in Hb. lia.
Qed.

Lemma length_little_endian (n : nat) (z : Z) : length (little_endian n z) = n.
Proof. revert z. induction n as [|n IH]; intros z; simpl; by rewrite ?IH. Qed.

Lemma from_bytes_little_endian (n : nat) (z : Z) :
  0 <= z < 256 ^ Z.of_nat n -> from_bytes (little_endian n z) = z.
Proof.
  revert z. induction n as [|n IH]; intros z Hz.
  - simpl in *. lia.
  - rewrite Nat2Z.inj_succ, Z.pow_succ_r in Hz by lia.
    simpl. rewrite Z_of_byte_of_Z, IH.
    + pose proof (Z.div_mod z 256). lia.
    + split; [apply Z.div_pos; lia | apply Z.div_lt_upper_bound; lia].
Qed.

Lemma to_bytes_4 (z : Z) :
  0 <= z < 2 ^ 32 -> to_bytes z 4 = Ok (little_endian 4 z).
Proof.
  intros Hz. unfold to_bytes.
  change (256 ^ Z.of_nat 4) with (2 ^ 32).
  destruct (Z.leb_spec 0 z), (Z.ltb_spec z (2 ^ 32)); simpl; done || lia.
Qed.

Lemma to_bytes_4_overflow (z : Z) :
  z < 0 \/ 2 ^ 32 <= z -> to_bytes z 4 = Err OverflowError.
Proof.
  intros Hz. unfold to_bytes.
  change (256 ^ Z.of_nat 4) with (2 ^ 32).
  destruct (Z.leb_spec 0 z), (Z.ltb_spec z (2 ^ 32)); simpl; done || lia.
Qed.

(** ** Results, indexing and slices *)

Lemma bind_ok {A B} (f : A -> result B) (a : A) : (Ok a ≫= f) = f a.
Proof. reflexivity. Qed.

Lemma getitem_lookup {A} (a : list A) (i : Z) (x : A) :
  0 <= i -> a !! Z.to_nat i = Some x -> getitem a i = Ok x.
Proof.
  intros Hi Hx. unfold getitem.
  destruct (Z.ltb_spec i 0); [lia|].
  destruct (Z.ltb_spec i 0); [lia|]. by rewrite Hx.
Qed.

Lemma getitem_error {A} (a : list A) (i : Z) (e : error) :
  getitem a i = Err e -> e = IndexError.
Proof.
  unfold getitem. repeat case_match; congruence.
Qed.

Lemma getitem_ok {A} (a : list A) (i : Z) (x : A) :
  0 <= i -> getitem a i = Ok x -> i < len a.
Proof.
  intros Hi. unfold getitem, len.
  destruct (Z.ltb_spec i 0); [lia|].
  destruct (Z.ltb_spec i 0); [lia|].
  destruct (a !! Z.to_nat i) eqn:E; [|done].
  apply lookup_lt_Some in E. lia.
Qed.

Lemma four_bytes (v : list byte) :
  length v = 4%nat -> exists a b c d, v = [a; b; c; d].
Proof. destruct v as [|a [|b [|c [|d [|]]]]]; try discriminate. eauto. Qed.

Lemma length_concat_4 {A} (fields : list (list A)) :
  Forall (fun v => length v = 4%nat) fields ->
  length (concat fields) = (4 * length fields)%nat.
Proof.
  induction 1 as [|v fields Hv _ IH]; [done|].
  simpl concat. rewrite length_app, IH, Hv. simpl length. lia.
Qed.

Lemma slice_concat_4 {A} (fields : list (list A)) (rest : list A) (k : nat)
    (v : list A) :
  Forall (fun v => length v = 4%nat) fields ->
  fields !! k = Some v ->
  slice (concat fields ++ rest) (4 * k) (4 * k + 4) = v.
Proof.
  intros Hfields. revert k. induction Hfields as [|u fields Hu _ IH]; intros k Hk.
  - done.
  - destruct k as [|k]; simpl in Hk.
    + injection Hk as ->. simpl concat. rewrite <- (assoc_L (++)).
      unfold slice. rewrite drop_0.
      replace (4 * 0 + 4 - 4 * 0)%nat with (length v) by lia.
      apply take_app_length.
    + simpl concat. rewrite <- (assoc_L (++)). unfold slice.
      replace (4 * S k)%nat with (length u + 4 * k)%nat by lia.
      rewrite drop_app_add.
      replace (length u + 4 * k + 4 - (length u + 4 * k))%nat
        with (4 * k + 4 - 4 * k)%nat by lia.
      by apply IH.
Qed.

(** ** The header *)

Section Header.
Context {N : Numpy} {U : Utils}.

Lemma two_values {A} (a : list A) :
  2 <= len a -> exists a0 a1 rest, a = a0 :: a1 :: rest.
Proof.
  unfold len. destruct a as [|a0 [|a1 rest]]; simpl; [lia..|]. eauto.
Qed.

Lemma make_header_fields (w : World) (in_filename : string)
    (bits_per_voxel : Z) (f : SegyFile) (s0 s1 x0 x1 i0 i1 : scalar)
    (ss xs js : list scalar) :
  segyio_open w in_filename = Ok f ->
  samples f = s0 :: s1 :: ss ->
  xlines f = x0 :: x1 :: xs ->
  ilines f = i0 :: i1 :: js ->
  np_float_to_bytes_4 ->
  encodable f -> uint32 bits_per_voxel ->
  make_header w in_filename bits_per_voxel
  = Ok (header_bytes f bits_per_voxel s0 s1 x0 x1 i0 i1).
Proof.
  intros Hopen Hs Hx Hi Hnp (Hns & Hnx & Hni) Hbpv.
  assert (Hs0 : getitem (samples f) 0 = Ok s0) by by rewrite Hs.
  assert (Hs1 : getitem (samples f) 1 = Ok s1) by by rewrite Hs.
  assert (Hx0 : getitem (xlines f) 0 = Ok x0) by by rewrite Hx.
  assert (Hx1 : getitem (xlines f) 1 = Ok x1) by by rewrite Hx.
  assert (Hi0 : getitem (ilines f) 0 = Ok i0) by by rewrite Hi.
  assert (Hi1 : getitem (ilines f) 1 = Ok i1) by by rewrite Hi.
  unfold make_header.
  repeat first
    [ rewrite bind_ok
    | rewrite to_bytes_4 by (unfold uint32 in *; lia)
    | rewrite Hopen | rewrite Hs0 | rewrite Hs1 | rewrite Hx0 | rewrite Hx1
    | rewrite Hi0 | rewrite Hi1 ].
  f_equal. unfold header_bytes, header_fields.
  repeat match goal with
         | |- context [little_endian 4 ?z] =>
             let E := fresh in
             destruct (four_bytes (little_endian 4 z)) as (? & ? & ? & ? & E);
             [apply length_little_endian|rewrite !E; clear E]
         | |- context [np_float_to_bytes ?x] =>
             let E := fresh in
             destruct (four_bytes (np_float_to_bytes x)) as (? & ? & ? & ? & E);
             [apply Hnp|rewrite !E; clear E]
         end.
  vm_compute. reflexivity.
Qed.

Lemma header_fields_4 (f : SegyFile) (bits_per_voxel : Z)
    (s0 s1 x0 x1 i0 i1 : scalar) :
  np_float_to_bytes_4 ->
  Forall (fun v => length v = 4%nat)
    (header_fields f bits_per_voxel s0 s1 x0 x1 i0 i1).
Proof.
  intros Hnp. unfold header_fields.
  repeat constructor; apply length_little_endian || apply Hnp.
Qed.

Lemma length_header_bytes (f : SegyFile) (bits_per_voxel : Z)
    (s0 s1 x0 x1 i0 i1 : scalar) :
  np_float_to_bytes_4 ->
  length (header_bytes f bits_per_voxel s0 s1 x0 x1 i0 i1) = 4096%nat.
Proof.
  intros Hnp. unfold header_bytes.
  rewrite length_app, length_replicate,
    (length_concat_4 _ (header_fields_4 _ _ _ _ _ _ _ _ Hnp)).
  reflexivity.
Qed.

Lemma header_bytes_field (f : SegyFile) (bits_per_voxel : Z)
    (s0 s1 x0 x1 i0 i1 : scalar) (k : nat) (v : list byte) :
  np_float_to_bytes_4 ->
  header_fields f bits_per_voxel s0 s1 x0 x1 i0 i1 !! k = Some v ->
  slice (header_bytes f bits_per_voxel s0 s1 x0 x1 i0 i1) (4 * k) (4 * k + 4) = v.
Proof.
  intros Hnp Hk. apply slice_concat_4; [by apply header_fields_4|done].
Qed.

Lemma header_bytes_reserved (f : SegyFile) (bits_per_voxel : Z)
    (s0 s1 x0 x1 i0 i1 : scalar) (i : nat) :
  np_float_to_bytes_4 ->
  (44 <= i < 4096)%nat ->
  header_bytes f bits_per_voxel s0 s1 x0 x1 i0 i1 !! i = Some "000"%byte.
Proof.
  intros Hnp Hi. unfold header_bytes.
  pose proof (length_concat_4 _ (header_fields_4 f bits_per_voxel
                                   s0 s1 x0 x1 i0 i1 Hnp)) as Hlen.
  change (length (header_fields f bits_per_voxel s0 s1 x0 x1 i0 i1))
    with 11%nat in Hlen.
  rewrite lookup_app_r by lia. apply lookup_replicate_2. lia.
Qed.

Local Ltac header_field Hnp k :=
  apply (header_bytes_field _ _ _ _ _ _ _ _ k _ Hnp); reflexivity.

(** C4 (as amended): for every source volume with at least two values on
    each axis and counts below 2^32, and every bits-per-voxel value from 0
    to 2^32 - 1, [make_header] returns a buffer of exactly 4096 bytes in
    which bytes [0,4) hold 1, bytes [4,8), [8,12) and [12,16) the sample,
    crossline and inline counts and bytes [40,44) the bits per voxel, each
    as a little-endian unsigned integer; bytes [16,40) hold the 4-byte
    encodings of the first sample, crossline and inline value and of the
    three increments; bytes [44,4096) are zero. *)
Theorem header_layout (w : World) (in_filename : string) (bits_per_voxel : Z)
    (f : SegyFile) :
  segyio_open w in_filename = Ok f ->
  np_float_to_bytes_4 ->
  encodable f -> uint32 bits_per_voxel ->
  exists buffer s0 s1 x0 x1 i0 i1,
    make_header w in_filename bits_per_voxel = Ok buffer
    /\ length buffer = 4096%nat
    /\ from_bytes (slice buffer 0 4) = 1
    /\ from_bytes (slice buffer 4 8) = len (samples f)
    /\ from_bytes (slice buffer 8 12) = len (xlines f)
    /\ from_bytes (slice buffer 12 16) = len (ilines f)
    /\ samples f !! 0%nat = Some s0 /\ samples f !! 1%nat = Some s1
    /\ xlines f !! 0%nat = Some x0 /\ xlines f !! 1%nat = Some x1
    /\ ilines f !! 0%nat = Some i0 /\ ilines f !! 1%nat = Some i1
    /\ slice buffer 16 20 = np_float_to_bytes s0
    /\ slice buffer 20 24 = np_float_to_bytes x0
    /\ slice buffer 24 28 = np_float_to_bytes i0
    /\ slice buffer 28 32 = np_float_to_bytes (scalar_sub s1 s0)
    /\ slice buffer 32 36 = np_float_to_bytes (scalar_sub x1 x0)
    /\ slice buffer 36 40 = np_float_to_bytes (scalar_sub i1 i0)
    /\ from_bytes (slice buffer 40 44) = bits_per_voxel
    /\ (forall i, (44 <= i < 4096)%nat -> buffer !! i = Some "000"%byte).
Proof.
  intros Hopen Hnp Henc Hbpv.
  pose proof Henc as (Hns & Hnx & Hni).
  destruct (two_values (samples f)) as (s0 & s1 & ss & Hs); [lia|].
  destruct (two_values (xlines f)) as (x0 & x1 & xs & Hx); [lia|].
  destruct (two_values (ilines f)) as (i0 & i1 & js & Hi); [lia|].
  exists (header_bytes f bits_per_voxel s0 s1 x0 x1 i0 i1), s0, s1, x0, x1, i0, i1.
  split; [by eapply make_header_fields|].
  split; [by apply length_header_bytes|].
  split; [by rewrite (header_bytes_field _ _ _ _ _ _ _ _ 0 _ Hnp eq_refl)|].
  split.
  { rewrite (header_bytes_field _ _ _ _ _ _ _ _ 1 _ Hnp eq_refl).
    apply from_bytes_little_endian. simpl. lia. }
  split.
  { rewrite (header_bytes_field _ _ _ _ _ _ _ _ 2 _ Hnp eq_refl).
    apply from_bytes_little_endian. simpl. lia. }
  split.
  { rewrite (header_bytes_field _ _ _ _ _ _ _ _ 3 _ Hnp eq_refl).
    apply from_bytes_little_endian. simpl. lia. }
  do 2 (split; [by rewrite Hs|]). do 2 (split; [by rewrite Hx|]).
  do 2 (split; [by rewrite Hi|]).
  split; [header_field Hnp 4%nat|]. split; [header_field Hnp 5%nat|].
  split; [header_field Hnp 6%nat|]. split; [header_field Hnp 7%nat|].
  split; [header_field Hnp 8%nat|]. split; [header_field Hnp 9%nat|].
  split.
  { rewrite (header_bytes_field _ _ _ _ _ _ _ _ 10 _ Hnp eq_refl).
    apply from_bytes_little_endian. apply Hbpv. }
  intros i Hrange. by apply header_bytes_reserved.
Qed.

Lemma make_header_overflow (w : World) (in_filename : string)
    (bits_per_voxel : Z) (f : SegyFile) :
  segyio_open w in_filename = Ok f -> encodable f ->
  bits_per_voxel < 0 \/ 2 ^ 32 <= bits_per_voxel ->
  make_header w in_filename bits_per_voxel = Err OverflowError.
Proof.
  intros Hopen (Hns & Hnx & Hni) Hbpv.
  destruct (two_values (samples f)) as (s0 & s1 & ss & Hs); [lia|].
  destruct (two_values (xlines f)) as (x0 & x1 & xs & Hx); [lia|].
  destruct (two_values (ilines f)) as (i0 & i1 & js & Hi); [lia|].
  assert (Hs0 : getitem (samples f) 0 = Ok s0) by by rewrite Hs.
  assert (Hs1 : getitem (samples f) 1 = Ok s1) by by rewrite Hs.
  assert (Hx0 : getitem (xlines f) 0 = Ok x0) by by rewrite Hx.
  assert (Hx1 : getitem (xlines f) 1 = Ok x1) by by rewrite Hx.
  assert (Hi0 : getitem (ilines f) 0 = Ok i0) by by rewrite Hi.
  assert (Hi1 : getitem (ilines f) 1 = Ok i1) by by rewrite Hi.
  unfold make_header.
  rewrite (to_bytes_4 1), bind_ok, Hopen, bind_ok by lia.
  rewrite (to_bytes_4 (len (samples f))), bind_ok by lia.
  rewrite (to_bytes_4 (len (xlines f))), bind_ok by lia.
  rewrite (to_bytes_4 (len (ilines f))), bind_ok by lia.
  repeat first [ rewrite bind_ok | rewrite Hs0 | rewrite Hs1 | rewrite Hx0
               | rewrite Hx1 | rewrite Hi0 | rewrite Hi1 ].
  by rewrite (to_bytes_4_overflow bits_per_voxel).
Qed.

(** C9 (as amended): a source volume with fewer than 2 values along the
    inline, the crossline or the sample axis makes [make_header] fail, with
    the [IndexError] of the indexing which the increment needs (whenever
    the counts fit their 32-bit fields).  On a volume with at least 2
    values on every axis and counts below 2^32 it succeeds for every
    bits_per_voxel from 0 to 2^32 - 1, and with a 4-byte encoding of the
    geometry values bytes [28,40) of the header hold the encoded
    differences of the first two values of the sample, crossline and inline
    axis; for a bits_per_voxel outside that range it fails on such a
    volume too, with [OverflowError]. *)
Theorem header_increments (w : World) (in_filename : string)
    (bits_per_voxel : Z) (f : SegyFile) :
  segyio_open w in_filename = Ok f ->
  (len (samples f) < 2 \/ len (xlines f) < 2 \/ len (ilines f) < 2 ->
   exists e, make_header w in_filename bits_per_voxel = Err e
     /\ (len (samples f) < 2 ^ 32 -> len (xlines f) < 2 ^ 32 ->
         len (ilines f) < 2 ^ 32 -> e = IndexError))
  /\ (np_float_to_bytes_4 -> encodable f -> uint32 bits_per_voxel ->
      exists buffer s0 s1 x0 x1 i0 i1,
        make_header w in_filename bits_per_voxel = Ok buffer
        /\ samples f !! 0%nat = Some s0 /\ samples f !! 1%nat = Some s1
        /\ xlines f !! 0%nat = Some x0 /\ xlines f !! 1%nat = Some x1
        /\ ilines f !! 0%nat = Some i0 /\ ilines f !! 1%nat = Some i1
        /\ slice buffer 28 32 = np_float_to_bytes (scalar_sub s1 s0)
        /\ slice buffer 32 36 = np_float_to_bytes (scalar_sub x1 x0)
        /\ slice buffer 36 40 = np_float_to_bytes (scalar_sub i1 i0))
  /\ (encodable f -> ~ uint32 bits_per_voxel ->
      make_header w in_filename bits_per_voxel = Err OverflowError).
Proof.
  intros Hopen. split; [|split].
  - intros Hshort. unfold make_header.
    rewrite (to_bytes_4 1) by lia. rewrite bind_ok, Hopen, bind_ok.
    destruct (Z.lt_ge_cases (len (samples f)) (2 ^ 32));
      [rewrite (to_bytes_4 (len (samples f))), bind_ok by (unfold len in *; lia)
      |rewrite (to_bytes_4_overflow (len (samples f))) by lia;
       eexists; split; [done|lia]].
    destruct (Z.lt_ge_cases (len (xlines f)) (2 ^ 32));
      [rewrite (to_bytes_4 (len (xlines f))), bind_ok by (unfold len in *; lia)
      |rewrite (to_bytes_4_overflow (len (xlines f))) by lia;
       eexists; split; [done|lia]].
    destruct (Z.lt_ge_cases (len (ilines f)) (2 ^ 32));
      [rewrite (to_bytes_4 (len (ilines f))), bind_ok by (unfold len in *; lia)
      |rewrite (to_bytes_4_overflow (len (ilines f))) by lia;
       eexists; split; [done|lia]].
    exists IndexError. split; [|done].
    repeat lazymatch goal with
           | |- (Ok _ ≫= _) = _ => rewrite bind_ok
           | |- (getitem ?a ?i ≫= _) = _ =>
               let E := fresh "E" in
               destruct (getitem a i) as [?|?] eqn:E;
               [rewrite bind_ok; apply getitem_ok in E; [|lia]
               |by apply getitem_error in E as ->]
           end.
    lia.
  - intros Hnp Henc Hbpv. pose proof Henc as (Hns & Hnx & Hni).
    destruct (two_values (samples f)) as (s0 & s1 & ss & Hs); [lia|].
    destruct (two_values (xlines f)) as (x0 & x1 & xs & Hx); [lia|].
    destruct (two_values (ilines f)) as (i0 & i1 & js & Hi); [lia|].
    exists (header_bytes f bits_per_voxel s0 s1 x0 x1 i0 i1), s0, s1, x0, x1, i0, i1.
    split; [by eapply make_header_fields|].
    do 2 (split; [by rewrite Hs|]). do 2 (split; [by rewrite Hx|]).
    do 2 (split; [by rewrite Hi|]).
    split; [header_field Hnp 7%nat|]. split; [header_field Hnp 8%nat|].
    header_field Hnp 9%nat.
  - intros Henc Hbpv. apply (make_header_overflow _ _ _ f); [done..|].
    unfold uint32 in Hbpv. lia.
Qed.

End Header.

Lemma utils_Z_4 : @np_float_to_bytes_4 numpy_Z utils_Z.
Proof. intros x. apply length_little_endian. Qed.

Lemma survey_encodable (n_il : Z) :
  2 <= n_il < 2 ^ 32 -> @encodable numpy_Z (survey n_il).
Proof.
  intros Hn. unfold encodable, len. simpl. rewrite length_seqZ. lia.
Qed.

Lemma header_layout_witness :
  exists buffer,
    make_header (U := utils_Z) (machine (Segy (survey 5)) 1000 1000)
      "in.segy" 4 = Ok buffer
    /\ length buffer = 4096%nat
    /\ from_bytes (slice buffer 12 16) = 5
    /\ from_bytes (slice buffer 40 44) = 4.
Proof.
  destruct (header_layout (U := utils_Z) (machine (Segy (survey 5)) 1000 1000)
              "in.segy" 4 (survey 5))
    as (buffer & s0 & s1 & x0 & x1 & i0 & i1 & Hb & Hlen & _ & _ & _ & Hil
        & _ & _ & _ & _ & _ & _ & _ & _ & _ & _ & _ & _ & Hbpv & _).
  - reflexivity.
  - exact utils_Z_4.
  - apply survey_encodable. lia.
  - unfold uint32. lia.
  - exists buffer. auto.
Defined.

(** C4, as stated, at a volume with a single inline: no buffer is
    returned. *)
Lemma header_single_inline :
  make_header (U := utils_Z) (machine (Segy (survey 1)) 1000 1000) "in.segy" 4
  = Err IndexError
  /\ ~ exists buffer,
        make_header (U := utils_Z) (machine (Segy (survey 1)) 1000 1000)
          "in.segy" 4 = Ok buffer
        /\ length buffer = 4096%nat.
Proof.
  assert (H : make_header (U := utils_Z) (machine (Segy (survey 1)) 1000 1000)
                "in.segy" 4 = Err IndexError) by (vm_compute; reflexivity).
  split; [exact H|]. intros (buffer & Hb & _). congruence.
Qed.

Lemma header_increments_witness :
  (exists e,
      make_header (U := utils_Z) (machine (Segy (survey 1)) 1000 1000)
        "in.segy" 4 = Err e
      /\ e = IndexError)
  /\ exists buffer,
      make_header (U := utils_Z) (machine (Segy (survey 5)) 1000 1000)
        "in.segy" 4 = Ok buffer
      /\ slice buffer 28 32 = little_endian 4 (4 - 0)
      /\ slice buffer 32 36 = little_endian 4 (2 - 1)
      /\ slice buffer 36 40 = little_endian 4 (11 - 10).
Proof.
  split.
  - destruct (header_increments (U := utils_Z)
                (machine (Segy (survey 1)) 1000 1000) "in.segy" 4 (survey 1)
                eq_refl) as (Hshort & _ & _).
    destruct Hshort as (e & He & Hindex).
    + right. right. vm_compute. reflexivity.
    + exists e. split; [exact He|]. apply Hindex; vm_compute; reflexivity.
  - destruct (header_increments (U := utils_Z)
                (machine (Segy (survey 5)) 1000 1000) "in.segy" 4 (survey 5)
                eq_refl) as (_ & Hok & _).
    destruct Hok
      as (buffer & s0 & s1 & x0 & x1 & i0 & i1 & Hb & Hs0 & Hs1 & Hx0 & Hx1
          & Hi0 & Hi1 & Hs & Hx & Hi).
    + exact utils_Z_4.
    + apply survey_encodable. lia.
    + unfold uint32. lia.
    + injection Hs0 as <-. injection Hs1 as <-. injection Hx0 as <-.
      injection Hx1 as <-. injection Hi0 as <-. injection Hi1 as <-.
      exists buffer. auto.
Defined.

(** C9, as stated, at a volume with 2 samples, 3 crosslines and 5 inlines,
    which has at least 2 values on every axis, and a bits_per_voxel of
    2^32: no header is returned. *)
Lemma header_bits_overflow :
  2 <= len (samples (survey 5)) /\ 2 <= len (xlines (survey 5))
  /\ 2 <= len (ilines (survey 5))
  /\ make_header (U := utils_Z) (machine (Segy (survey 5)) 1000 1000)
       "in.segy" (2 ^ 32)
     = Err OverflowError
  /\ ~ exists buffer,
        make_header (U := utils_Z) (machine (Segy (survey 5)) 1000 1000)
          "in.segy" (2 ^ 32) = Ok buffer.
Proof.
  assert (H : make_header (U := utils_Z) (machine (Segy (survey 5)) 1000 1000)
                "in.segy" (2 ^ 32) = Err OverflowError)
    by (vm_compute; reflexivity).
  do 3 (split; [vm_compute; discriminate|]).
  split; [exact H|]. intros (buffer & Hb). congruence.
Qed.

(** ** Padding *)

Lemma pad_multiple (orig multiple : Z) :
  0 < multiple ->
  exists p, pad orig multiple = Ok p
            /\ p mod multiple = 0 /\ orig <= p < orig + multiple.
Proof.
  intros Hm. unfold pad.
  destruct (Z.eqb_spec multiple 0); [lia|].
  pose proof (Z.div_mod orig multiple ltac:(lia)).
  pose proof (Z.mod_pos_bound orig multiple Hm).
  destruct (Z.eqb_spec (orig mod multiple) 0).
  - eexists. split; [done|]. split; [done|lia].
  - eexists. split; [done|]. split; [|lia].
    rewrite Z.mul_comm. apply Z_mod_mult.
Qed.

Lemma sample_multiple (bits_per_voxel : Z) :
  1 <= bits_per_voxel <= 2048 ->
  exists multiple, floordiv 2048 bits_per_voxel = Ok multiple
                   /\ multiple = 2048 / bits_per_voxel /\ 0 < multiple.
Proof.
  intros Hb. unfold floordiv.
  destruct (Z.eqb_spec bits_per_voxel 0); [lia|].
  eexists. split; [done|]. split; [done|]. apply Z.div_str_pos. lia.
Qed.

Lemma padded_shape_aligned (shape : Z * Z * Z) (bits_per_voxel : Z) :
  1 <= bits_per_voxel <= 2048 ->
  exists p,
    padded_shape shape bits_per_voxel = Ok p
    /\ p.1.1 mod 4 = 0 /\ p.1.2 mod 4 = 0
    /\ p.2 mod (2048 / bits_per_voxel) = 0
    /\ shape.1.1 <= p.1.1 < shape.1.1 + 4
    /\ shape.1.2 <= p.1.2 < shape.1.2 + 4
    /\ shape.2 <= p.2 < shape.2 + 2048 / bits_per_voxel.
Proof.
  intros Hb. unfold padded_shape.
  destruct (pad_multiple shape.1.1 4) as (p0 & -> & ? & ?); [lia|].
  destruct (pad_multiple shape.1.2 4) as (p1 & -> & ? & ?); [lia|].
  destruct (sample_multiple bits_per_voxel Hb) as (m & -> & -> & ?).
  destruct (pad_multiple shape.2 (2048 / bits_per_voxel)) as (p2 & Hp2 & ? & ?);
    [lia|].
  rewrite !bind_ok, Hp2. by exists (p0, p1, p2).
Qed.

(** ** Arrays of zeros and assignment into them *)

Section Arrays.
Context {N : Numpy}.

Lemma overlay_replicate {A B} (g : A -> B -> A) (z : A) (K k : nat)
    (data : list B) :
  length data = k -> (k <= K)%nat ->
  zip_with g (take k (replicate K z)) (take k data) ++ drop k (replicate K z)
  = (g z <$> data) ++ replicate (K - k) z.
Proof.
  intros Hk HK.
  rewrite take_replicate, Nat.min_l, drop_replicate by done.
  rewrite (take_ge data) by lia.
  by rewrite zip_with_replicate_l by lia.
Qed.

Lemma assign1_zeros (p2 n : Z) (row : list voxel) :
  len row = n -> n <= p2 ->
  assign1 (zeros1 p2) n row = row ++ zeros1 (p2 - n).
Proof.
  unfold len. intros Hn Hp. unfold assign1, zeros1.
  rewrite take_ge, drop_replicate by lia. do 2 f_equal. lia.
Qed.

Lemma assign2_zeros (p1 p2 m n : Z) (data : ndarray2) :
  has_shape2 data (m, n) -> m <= p1 -> n <= p2 ->
  assign2 (zeros2 (p1, p2)) m n data
  = ((fun row => row ++ zeros1 (p2 - n)) <$> data)
    ++ replicate (Z.to_nat (p1 - m)) (zeros1 p2).
Proof.
  unfold has_shape2, len. simpl. intros [Hm Hrows] Hp1 Hp2.
  unfold assign2, zeros2. simpl.
  rewrite overlay_replicate by lia. f_equal.
  - apply Forall_fmap_ext_1. eapply Forall_impl; [exact Hrows|].
    intros row Hrow. simpl in Hrow. by apply assign1_zeros.
  - f_equal. lia.
Qed.

Lemma assign3_zeros (p0 p1 p2 k m n : Z) (data : ndarray3) :
  has_shape3 data (k, m, n) -> k <= p0 ->
  assign3 (zeros3 (p0, p1, p2)) k m n data
  = ((fun plane => assign2 (zeros2 (p1, p2)) m n plane) <$> data)
    ++ replicate (Z.to_nat (p0 - k)) (zeros2 (p1, p2)).
Proof.
  unfold has_shape3, len. simpl. intros [Hk _] Hp0.
  unfold assign3, zeros3. simpl.
  rewrite overlay_replicate by lia. do 2 f_equal. lia.
Qed.

Lemma has_shape2_zeros (p1 p2 : Z) :
  0 <= p1 -> 0 <= p2 -> has_shape2 (zeros2 (p1, p2)) (p1, p2).
Proof.
  intros Hp1 Hp2. unfold has_shape2, zeros2, zeros1, len. simpl. split.
  - rewrite length_replicate. lia.
  - apply Forall_replicate. rewrite length_replicate. lia.
Qed.

Lemma has_shape2_assign2 (p1 p2 m n : Z) (data : ndarray2) :
  has_shape2 data (m, n) -> m <= p1 -> n <= p2 -> 0 <= p2 ->
  has_shape2 (assign2 (zeros2 (p1, p2)) m n data) (p1, p2).
Proof.
  intros Hdata Hp1 Hp2 Hpos. rewrite assign2_zeros by done.
  destruct Hdata as [Hm Hrows]. unfold has_shape2, len in *. simpl in *.
  split.
  - rewrite length_app, length_fmap, length_replicate. lia.
  - apply Forall_app. split.
    + apply Forall_fmap. eapply Forall_impl; [exact Hrows|].
      intros row Hrow. unfold compose, zeros1, len in *. simpl in *.
      rewrite length_app, length_replicate. lia.
    + apply Forall_replicate. unfold zeros1. rewrite length_replicate. lia.
Qed.

Lemma lookup_app_replicate {A} (l : list A) (z : A) (q i : nat) :
  (i < length l + q)%nat ->
  (l ++ replicate q z) !! i = Some (default z (l !! i)).
Proof.
  intros Hi. destruct (l !! i) as [v|] eqn:Hv; simpl.
  - by apply lookup_app_l_Some.
  - apply lookup_ge_None in Hv.
    rewrite lookup_app_r by done. apply lookup_replicate_2. lia.
Qed.

Lemma lookup_zeros1 (p2 : Z) (s : nat) :
  Z.of_nat s < p2 -> zeros1 p2 !! s = Some voxel_zero.
Proof. intros Hs. apply lookup_replicate_2. lia. Qed.

Lemma lookup_zeros2 (p1 p2 : Z) (x : nat) :
  Z.of_nat x < p1 -> zeros2 (p1, p2) !! x = Some (zeros1 p2).
Proof. intros Hx. apply lookup_replicate_2. simpl. lia. Qed.

(** A voxel of a padded plane: the voxel of the data where there is one,
    zero elsewhere. *)
Lemma assign2_zeros_lookup (p1 p2 m n : Z) (data : ndarray2) (x s : nat) :
  has_shape2 data (m, n) -> m <= p1 -> n <= p2 ->
  Z.of_nat x < p1 -> Z.of_nat s < p2 ->
  (row ← assign2 (zeros2 (p1, p2)) m n data !! x; row !! s)
  = Some (default voxel_zero (row ← data !! x; row !! s)).
Proof.
  intros Hdata Hp1 Hp2 Hx Hs. rewrite assign2_zeros by done.
  destruct Hdata as [Hm Hrows]. unfold len in *. simpl in *.
  rewrite lookup_app_replicate by (rewrite length_fmap; lia).
  rewrite list_lookup_fmap.
  destruct (data !! x) as [row|] eqn:Hrow; simpl.
  - apply (Forall_lookup_1 _ _ _ _ Hrows) in Hrow. simpl in Hrow.
    unfold zeros1. apply lookup_app_replicate. lia.
  - by apply lookup_zeros1.
Qed.

End Arrays.

Section Padded_volume.
Context {N : Numpy}.

Lemma supported_rate (bits_per_voxel : Z) :
  bits_per_voxel ∈ [1; 2; 4; 8; 16] -> 1 <= bits_per_voxel <= 2048.
Proof. rewrite !elem_of_cons, elem_of_nil. lia. Qed.

Lemma shape3_nonneg (data : ndarray3) :
  0 <= (shape3 data).1.1 /\ 0 <= (shape3 data).1.2 /\ 0 <= (shape3 data).2.
Proof. unfold shape3, len. simpl. lia. Qed.

Lemma data_padded_closed (data : ndarray3) (bits_per_voxel : Z) (p : Z * Z * Z) :
  has_shape3 data (shape3 data) ->
  padded_shape (shape3 data) bits_per_voxel = Ok p ->
  (shape3 data).1.1 <= p.1.1 ->
  data_padded data bits_per_voxel
  = Ok (padded_volume data (shape3 data).1.2 (shape3 data).2 p).
Proof.
  intros Hdata Hp Hp0. unfold data_padded. rewrite Hp, bind_ok.
  destruct p as [[p0 p1] p2]. f_equal. unfold padded_volume.
  change (len data) with (shape3 data).1.1.
  apply assign3_zeros; [|done]. by destruct (shape3 data) as [[k m] n].
Qed.

Lemma has_shape3_padded_volume (data : ndarray3) (k m n : Z) (p : Z * Z * Z) :
  has_shape3 data (k, m, n) ->
  k <= p.1.1 -> m <= p.1.2 -> n <= p.2 -> 0 <= p.1.2 -> 0 <= p.2 ->
  has_shape3 (padded_volume data m n p) p.
Proof.
  intros [Hk Hplanes] Hp0 Hp1 Hp2 Hpos1 Hpos2.
  destruct p as [[p0 p1] p2]. unfold padded_volume. simpl in *. split.
  - unfold len in *. simpl.
    rewrite length_app, length_fmap, length_replicate. lia.
  - apply Forall_app. split.
    + apply Forall_fmap. eapply Forall_impl; [exact Hplanes|].
      intros plane Hplane. simpl in *. by apply has_shape2_assign2.
    + apply Forall_replicate. by apply has_shape2_zeros.
Qed.

Lemma padded_volume_voxel (data : ndarray3) (k m n : Z) (p : Z * Z * Z)
    (i x s : nat) :
  has_shape3 data (k, m, n) ->
  k <= p.1.1 -> m <= p.1.2 -> n <= p.2 ->
  Z.of_nat i < p.1.1 -> Z.of_nat x < p.1.2 -> Z.of_nat s < p.2 ->
  voxel_at (padded_volume data m n p) i x s
  = Some (default voxel_zero (voxel_at data i x s)).
Proof.
  intros [Hk Hplanes] Hp0 Hp1 Hp2 Hi Hx Hs.
  destruct p as [[p0 p1] p2]. unfold padded_volume, voxel_at, len in *.
  simpl in *.
  rewrite lookup_app_replicate by (rewrite length_fmap; lia).
  rewrite list_lookup_fmap.
  destruct (data !! i) as [plane|] eqn:Hplane; simpl.
  - apply (Forall_lookup_1 _ _ _ _ Hplanes) in Hplane.
    by apply assign2_zeros_lookup.
  - rewrite lookup_zeros2 by done. simpl. by apply lookup_zeros1.
Qed.

(** C5: for every bits-per-voxel value among 1, 2, 4, 8 and 16 and every
    shape (I, X, S), the padded shape (I', X', S') has [I' % 4 = 0],
    [X' % 4 = 0], [S' % (2048 / bits_per_voxel) = 0] and [I' >= I],
    [X' >= X], [S' >= S]; the padded volume has that shape, holds the
    voxels of the data at their positions and zero everywhere else. *)
Theorem padding_invariant (bits_per_voxel : Z) :
  bits_per_voxel ∈ [1; 2; 4; 8; 16] ->
  (forall shape : Z * Z * Z,
      exists p,
        padded_shape shape bits_per_voxel = Ok p
        /\ p.1.1 mod 4 = 0 /\ p.1.2 mod 4 = 0
        /\ p.2 mod (2048 / bits_per_voxel) = 0
        /\ shape.1.1 <= p.1.1 /\ shape.1.2 <= p.1.2 /\ shape.2 <= p.2)
  /\ (forall data : ndarray3,
         has_shape3 data (shape3 data) ->
         exists p padded,
           padded_shape (shape3 data) bits_per_voxel = Ok p
           /\ data_padded data bits_per_voxel = Ok padded
           /\ has_shape3 padded p
           /\ forall i x s : nat,
               Z.of_nat i < p.1.1 -> Z.of_nat x < p.1.2 -> Z.of_nat s < p.2 ->
               voxel_at padded i x s
               = Some (default voxel_zero (voxel_at data i x s))).
Proof.
  intros Hb%supported_rate. split.
  - intros shape.
    destruct (padded_shape_aligned shape bits_per_voxel Hb)
      as (p & Hp & ? & ? & ? & ? & ? & ?).
    exists p. repeat split; done || lia.
  - intros data Hdata.
    destruct (padded_shape_aligned (shape3 data) bits_per_voxel Hb)
      as (p & Hp & _ & _ & _ & Hp0 & Hp1 & Hp2).
    pose proof (shape3_nonneg data) as (Hk & Hm & Hn).
    eexists p, _. split; [done|].
    split; [apply data_padded_closed; [done..|lia]|].
    destruct (shape3 data) as [[k m] n] eqn:Hshape. simpl in *. split.
    + eapply has_shape3_padded_volume; [done|lia..].
    + intros i x s Hi Hx Hs.
      eapply padded_volume_voxel; [done|lia..].
Qed.

End Padded_volume.

Lemma padding_invariant_witness :
  exists p padded,
    padded_shape (3, 2, 5) 16 = Ok p
    /\ p = (4, 4, 128)
    /\ data_padded (N := numpy_Z) [[[7; 8]]] 16 = Ok padded
    /\ voxel_at padded 0 0 1 = Some 8
    /\ voxel_at padded 3 3 127 = Some 0.
Proof.
  destruct (padding_invariant (N := numpy_Z) 16) as [Hshape Hdata].
  - rewrite !elem_of_cons. auto 10.
  - destruct (Hshape (3, 2, 5)) as (p & Hp & _).
    destruct (Hdata [[[7; 8]]]) as (q & padded & Hq & Hpadded & _ & Hvoxels).
    + repeat constructor.
    + assert (q = (4, 4, 128)) as -> by (vm_compute in Hq; congruence).
      assert (p = (4, 4, 128)) as -> by (vm_compute in Hp; congruence).
      exists (4, 4, 128), padded. split; [exact Hp|].
      split; [reflexivity|]. split; [exact Hpadded|].
      split; [apply (Hvoxels 0 0 1)%nat | apply (Hvoxels 3 3 127)%nat];
        simpl; lia.
Defined.

(** ** The producer *)

Section Producer.
Context {N : Numpy}.

(** The inner loop fills the planes of a buffer of zeros one after the
    other with the padded inlines of the group. *)
Lemma read_planes_zeros (f : SegyFile) (X T k p1 p2 : Z) (n j : nat)
    (filled : ndarray3) :
  length filled = j -> (j + n <= 4)%nat -> 0 <= k ->
  (Z.to_nat (4 * k) + j + n <= length (ilines f))%nat ->
  read_planes f X T k (seqZ (Z.of_nat j) (Z.of_nat n))
    (filled ++ replicate (4 - j) (zeros2 (p1, p2)))
  = Ok (filled
        ++ ((fun plane => assign2 (zeros2 (p1, p2)) X T plane)
              <$> take n (drop (Z.to_nat (4 * k) + j) (volume f)))
        ++ replicate (4 - j - n) (zeros2 (p1, p2))).
Proof.
  revert j filled. induction n as [|n IH]; intros j filled Hj Hn Hk Hlen.
  - rewrite seqZ_nil by lia. simpl. by rewrite Nat.sub_0_r.
  - rewrite seqZ_cons by lia. simpl read_planes.
    destruct (lookup_lt_is_Some_2 (ilines f) (Z.to_nat (4 * k) + j))
      as [number Hnumber]; [lia|].
    rewrite (getitem_lookup _ _ number), bind_ok;
      [|lia|by replace (Z.to_nat (k * 4 + Z.of_nat j))
               with (Z.to_nat (4 * k) + j)%nat by lia].
    assert (Hplane : volume f !! (Z.to_nat (4 * k) + j)%nat
                     = Some (iline f number))
      by (unfold volume; by rewrite list_lookup_fmap, Hnumber).
    rewrite (drop_S _ _ _ Hplane). simpl take. rewrite fmap_cons.
    unfold assign_plane. rewrite Nat2Z.id.
    replace (4 - j - S n)%nat with (4 - S j - n)%nat by lia.
    replace (4 - j)%nat with (S (4 - S j)) by lia. cbn [replicate].
    rewrite lookup_app_r, Hj, Nat.sub_diag by lia. cbn [lookup list_lookup].
    rewrite bind_ok, insert_app_r_alt, Hj, Nat.sub_diag by lia.
    cbn [insert list_insert].
    replace (Z.succ (Z.of_nat j)) with (Z.of_nat (S j)) by lia.
    replace (Z.pred (Z.of_nat (S n))) with (Z.of_nat n) by lia.
    rewrite (cons_middle _ filled), (assoc_L (++)).
    rewrite IH; [|rewrite length_app; simpl; lia|lia..].
    rewrite <- (assoc_L (++)). simpl.
    by replace (Z.to_nat (4 * k) + S j)%nat with (S (Z.to_nat (4 * k) + j)) by lia.
Qed.

(** Each buffer of the producer is a group of 4 planes of the padded
    volume. *)
Lemma buffer_plane_set (f : SegyFile) (X T k g : Z) (p : Z * Z * Z) :
  p.1.1 = 4 * g ->
  len (ilines f) <= p.1.1 < len (ilines f) + 4 ->
  0 <= k < g ->
  read_planes f X T k
    (range (if (k + 1) * 4 >? len (ilines f) then len (ilines f) mod 4 else 4))
    (zeros3 (4, p.1.2, p.2))
  = Ok (plane_set (padded_volume (volume f) X T p) k).
Proof.
  intros Hg Hp0 Hk. destruct p as [[p0 p1] p2]. simpl in *.
  set (I := len (ilines f)) in *.
  set (ptr := if (k + 1) * 4 >? I then I mod 4 else 4).
  assert (Hptr : 0 <= ptr <= 4 /\ 4 * k + ptr <= I
                 /\ (ptr = 4 \/ 4 * k + ptr = I /\ p0 = 4 * k + 4)).
  { subst ptr. destruct (Z.gtb_spec ((k + 1) * 4) I) as [Hlast|Hfull]; [|lia].
    assert (I mod 4 = I - 4 * k)
      by (symmetry; apply Z.mod_unique_pos with (q := k); lia).
    lia. }
  destruct Hptr as (Hrange & Hfit & Hcase).
  assert (Hvol : length (volume f) = length (ilines f))
    by (unfold volume; apply length_fmap).
  assert (Hread := read_planes_zeros f X T k p1 p2 (Z.to_nat ptr) 0 []).
  rewrite Z2Nat.id in Hread by lia.
  etrans; [apply Hread; [done|lia|lia|unfold I, len in *; lia]|].
  clear Hread. f_equal. unfold plane_set, padded_volume. simpl.
  rewrite Nat.add_0_r. fold I. unfold I, len in *.
  rewrite drop_app_le by (rewrite length_fmap; lia).
  rewrite <- fmap_drop.
  destruct Hcase as [->|[Hlast ->]].
  - rewrite take_app_le by (rewrite length_fmap, length_drop; lia).
    by rewrite fmap_take, app_nil_r.
  - rewrite (take_ge (drop _ _)) by (rewrite length_drop; lia).
    rewrite take_ge
      by (rewrite length_app, length_fmap, length_drop, length_replicate; lia).
    do 2 f_equal. lia.
Qed.

Lemma produce_loop_plane_sets (f : SegyFile) (X T g : Z) (p : Z * Z * Z)
    (n : nat) (a : Z) :
  p.1.1 = 4 * g ->
  len (ilines f) <= p.1.1 < len (ilines f) + 4 ->
  0 <= a -> a + Z.of_nat n <= g ->
  produce_loop f (len (ilines f)) X T p (seqZ a (Z.of_nat n))
  = (plane_set (padded_volume (volume f) X T p) <$> seqZ a (Z.of_nat n), Ok ()).
Proof.
  intros Hg Hp0. revert a. induction n as [|n IH]; intros a Ha Hn.
  - by rewrite seqZ_nil.
  - rewrite seqZ_cons by lia. simpl produce_loop.
    rewrite (buffer_plane_set f X T a g p) by (done || lia).
    replace (Z.pred (Z.of_nat (S n))) with (Z.of_nat n) by lia.
    rewrite IH by lia. by rewrite fmap_cons.
Qed.

Lemma regular_volume (f : SegyFile) :
  regular f ->
  has_shape3 (volume f) (len (ilines f), len (xlines f), len (samples f)).
Proof.
  intros Hf. split.
  - unfold volume, len. simpl. by rewrite length_fmap.
  - unfold volume. by apply Forall_fmap.
Qed.

Lemma regular_shape2 (f : SegyFile) (number : scalar) :
  regular f -> number ∈ ilines f -> 1 <= len (xlines f) ->
  shape2 (iline f number) = (len (xlines f), len (samples f)).
Proof.
  intros Hf Hnumber HX. unfold regular in Hf.
  rewrite Forall_forall in Hf. destruct (Hf _ Hnumber) as [Hrows Hrow].
  unfold shape2, len in *. simpl in *. f_equal; [done|].
  destruct (iline f number) as [|row rows]; simpl in *; [lia|].
  by inversion Hrow.
Qed.

Lemma produce_plane_sets (w : World) (in_filename : string)
    (bits_per_voxel : Z) (f : SegyFile) :
  segyio_open w in_filename = Ok f ->
  regular f -> 1 <= len (ilines f) -> 1 <= len (xlines f) ->
  1 <= bits_per_voxel <= 2048 ->
  exists p,
    padded_shape (len (ilines f), len (xlines f), len (samples f))
      bits_per_voxel = Ok p
    /\ produce w in_filename bits_per_voxel
       = (plane_set (padded_volume (volume f) (len (xlines f))
                       (len (samples f)) p) <$> range (p.1.1 / 4),
          Ok ()).
Proof.
  intros Hopen Hf HI HX Hb.
  destruct (padded_shape_aligned
              (len (ilines f), len (xlines f), len (samples f))
              bits_per_voxel Hb) as (p & Hp & Hp0 & _ & _ & Hle & _).
  exists p. split; [done|]. simpl in Hle.
  unfold produce, produce_setup. rewrite Hopen, bind_ok.
  assert (Hnum : exists number,
             getitem (ilines f) 0 = Ok number /\ number ∈ ilines f).
  { destruct (ilines f) as [|number numbers];
      [unfold len in HI; simpl in HI; lia|].
    exists number. split; [done|left]. }
  destruct Hnum as (number & -> & Hin). rewrite bind_ok.
  rewrite (regular_shape2 f number Hf Hin HX).
  simpl snd. rewrite Hp, bind_ok.
  pose proof (Z.div_mod p.1.1 4 ltac:(lia)) as Hdiv. rewrite Hp0 in Hdiv.
  assert (0 <= p.1.1 / 4) by (unfold len in *; lia).
  unfold range. rewrite <- (Z2Nat.id (p.1.1 / 4)) by done.
  apply produce_loop_plane_sets with (g := p.1.1 / 4); lia.
Qed.

End Producer.

(** ** The consumer and the event loop *)

Section Consumer.
Context {N : Numpy} {C : Codec}.

Lemma consume_writes (bits_per_voxel : Z) (queue : list ndarray3)
    (f : list byte) :
  consume bits_per_voxel queue f
  = f ++ concat ((fun segy_buffer => compress segy_buffer bits_per_voxel)
                   <$> queue).
Proof.
  revert f. induction queue as [|segy_buffer queue IH]; intros f; simpl.
  - by rewrite app_nil_r.
  - by rewrite IH, (assoc_L (++)).
Qed.

Lemma producer_turn_fills (pending queue : list ndarray3) :
  producer_turn pending queue
  = (drop (QUEUE_MAXSIZE - length queue) pending,
     queue ++ take (QUEUE_MAXSIZE - length queue) pending).
Proof.
  revert queue. induction pending as [|segy_buffer pending IH]; intros queue.
  - simpl. by rewrite drop_nil, take_nil, app_nil_r.
  - simpl. case_decide as Hroom.
    + rewrite IH, length_app. simpl.
      replace (QUEUE_MAXSIZE - length queue)%nat
        with (S (QUEUE_MAXSIZE - (length queue + 1))) by lia.
      simpl. by rewrite <- (assoc_L (++)).
    + replace (QUEUE_MAXSIZE - length queue)%nat with 0%nat by lia.
      simpl. by rewrite app_nil_r.
Qed.

(** With enough fuel the event loop ends with every queued buffer
    compressed and written, in the order of the queue. *)
Lemma event_loop_writes (fuel : nat) (bits_per_voxel : Z)
    (pending : list ndarray3) (f : list byte) :
  (length pending < fuel)%nat ->
  event_loop fuel bits_per_voxel pending [] f
  = f ++ concat ((fun segy_buffer => compress segy_buffer bits_per_voxel)
                   <$> pending).
Proof.
  revert pending f. induction fuel as [|fuel IH]; intros pending f Hfuel;
    [lia|].
  simpl event_loop. rewrite producer_turn_fills. unfold QUEUE_MAXSIZE.
  simpl. rewrite consume_writes.
  destruct (drop 16 pending) as [|segy_buffer rest] eqn:Hrest.
  - apply (f_equal length) in Hrest. rewrite length_drop in Hrest.
    simpl in Hrest. by rewrite take_ge by lia.
  - rewrite <- Hrest. rewrite IH.
    + rewrite <- (assoc_L (++)), <- concat_app, <- fmap_app.
      by rewrite take_drop.
    + apply (f_equal length) in Hrest. rewrite length_drop in *.
      simpl in Hrest. lia.
Qed.

End Consumer.

(** ** The buffers which the producer queues *)

Section Buffers.
Context {N : Numpy} {C : Codec}.

Lemma plane_set_shape (padded : ndarray3) (p : Z * Z * Z) (k g : Z) :
  has_shape3 padded p -> p.1.1 = 4 * g -> 0 <= k < g ->
  has_shape3 (plane_set padded k) (4, p.1.2, p.2).
Proof.
  intros [Hlen Hplanes] Hg Hk. unfold plane_set. split; simpl.
  - unfold len in *. rewrite length_take, length_drop. lia.
  - by apply Forall_take, Forall_drop.
Qed.

Lemma plane_set_voxel (padded : ndarray3) (k : Z) (j x s : nat) :
  (j < 4)%nat ->
  voxel_at (plane_set padded k) j x s
  = voxel_at padded (Z.to_nat (4 * k) + j) x s.
Proof.
  intros Hj. unfold voxel_at, plane_set.
  by rewrite lookup_take_lt, lookup_drop by done.
Qed.

(** C10: in streaming mode the producer completes, every buffer it queues
    has the shape (4, padded crossline count, padded sample count), and
    there are exactly padded-inline-count / 4 of them.  Plane [j] of buffer
    [k] is inline [4k + j] padded with zeros, and a plane of zeros when the
    volume has no such inline: when the inline count is not a multiple of
    4 the last buffer holds the remaining [I mod 4] inlines followed by
    planes of zeros.  The consumer compresses and writes each queued buffer,
    in order. *)
Theorem producer_buffers (w : World) (in_filename : string)
    (bits_per_voxel : Z) (f : SegyFile) :
  segyio_open w in_filename = Ok f ->
  regular f -> 1 <= len (ilines f) -> 1 <= len (xlines f) ->
  1 <= bits_per_voxel <= 2048 ->
  exists p queued,
    padded_shape (len (ilines f), len (xlines f), len (samples f))
      bits_per_voxel = Ok p
    /\ produce w in_filename bits_per_voxel = (queued, Ok ())
    /\ len queued = p.1.1 / 4
    /\ Forall (fun segy_buffer => has_shape3 segy_buffer (4, p.1.2, p.2)) queued
    /\ (forall (k : nat) segy_buffer (j x s : nat),
           queued !! k = Some segy_buffer ->
           (j < 4)%nat -> Z.of_nat x < p.1.2 -> Z.of_nat s < p.2 ->
           voxel_at segy_buffer j x s
           = Some (default voxel_zero (voxel_at (volume f) (4 * k + j) x s)))
    /\ (len (ilines f) mod 4 <> 0 ->
        exists final,
          last queued = Some final
          /\ forall j x s : nat,
              (j < 4)%nat -> Z.of_nat x < p.1.2 -> Z.of_nat s < p.2 ->
              voxel_at final j x s
              = if decide (Z.of_nat j < len (ilines f) mod 4)
                then Some (default voxel_zero
                             (voxel_at (volume f)
                                (Z.to_nat (len (ilines f) - len (ilines f) mod 4) + j)
                                x s))
                else Some voxel_zero)
    /\ (forall header,
           event_loop (S (length queued)) bits_per_voxel queued [] header
           = header
             ++ concat ((fun segy_buffer => compress segy_buffer bits_per_voxel)
                          <$> queued)).
Proof.
  intros Hopen Hf HI HX Hb.
  destruct (produce_plane_sets w in_filename bits_per_voxel f)
    as (p & Hp & Hproduce); [done..|].
  destruct (padded_shape_aligned
              (len (ilines f), len (xlines f), len (samples f)) _ Hb)
    as (p' & Hp' & Hp0 & _ & _ & Hle0 & Hle1 & Hle2).
  rewrite Hp in Hp'. injection Hp' as <-. simpl in Hle0, Hle1, Hle2.
  pose proof (Z.div_mod p.1.1 4 ltac:(lia)) as Hdiv. rewrite Hp0 in Hdiv.
  set (g := p.1.1 / 4) in *.
  set (padded := padded_volume (volume f) (len (xlines f)) (len (samples f)) p)
    in *.
  pose proof (regular_volume f Hf) as Hvolume.
  assert (Hpadded : has_shape3 padded p)
    by (eapply has_shape3_padded_volume; [done|unfold len in *; lia..]).
  assert (Hg : 0 <= g) by (unfold len in *; lia).
  assert (Hqueued : forall (k : nat) segy_buffer,
             (plane_set padded <$> range g) !! k = Some segy_buffer ->
             Z.of_nat k < g /\ segy_buffer = plane_set padded (Z.of_nat k)).
  { intros k segy_buffer Hk. rewrite list_lookup_fmap in Hk.
    unfold range in Hk.
    destruct (seqZ 0 g !! k) as [k'|] eqn:Hk'; [|done].
    apply lookup_seqZ in Hk' as [-> ?]. simpl in Hk. split; [lia|].
    injection Hk as <-. f_equal. }
  assert (Hvoxel : forall (k : nat) segy_buffer (j x s : nat),
             (plane_set padded <$> range g) !! k = Some segy_buffer ->
             (j < 4)%nat -> Z.of_nat x < p.1.2 -> Z.of_nat s < p.2 ->
             voxel_at segy_buffer j x s
             = Some (default voxel_zero
                       (voxel_at (volume f) (4 * k + j) x s))).
  { intros k segy_buffer j x s Hk Hj Hx Hs.
    apply Hqueued in Hk as [Hk ->]. rewrite plane_set_voxel by done.
    replace (Z.to_nat (4 * Z.of_nat k) + j)%nat with (4 * k + j)%nat by lia.
    eapply padded_volume_voxel; [done|lia..]. }
  exists p, (plane_set padded <$> range g).
  split; [done|]. split; [done|]. split.
  { unfold len, range. rewrite length_fmap, length_seqZ. lia. }
  split.
  { apply Forall_lookup. intros k segy_buffer Hk.
    apply Hqueued in Hk as [Hk ->].
    apply plane_set_shape with (g := g); [done|lia|lia]. }
  split; [exact Hvoxel|]. split.
  - intros Hmod.
    pose proof (Z.div_mod (len (ilines f)) 4 ltac:(lia)) as HdivI.
    pose proof (Z.mod_pos_bound (len (ilines f)) 4 ltac:(lia)) as HmodI.
    assert (Hlast : 4 * (g - 1) = len (ilines f) - len (ilines f) mod 4) by lia.
    assert (Hfinal : (plane_set padded <$> range g) !! Z.to_nat (g - 1)
                     = Some (plane_set padded (g - 1))).
    { rewrite list_lookup_fmap. unfold range.
      rewrite lookup_seqZ_lt by lia. simpl. do 2 f_equal. lia. }
    exists (plane_set padded (g - 1)). split.
    + rewrite last_lookup, <- Hfinal. f_equal.
      unfold range. rewrite length_fmap, length_seqZ. lia.
    + intros j x s Hj Hx Hs.
      rewrite (Hvoxel _ _ j x s Hfinal) by done.
      replace (4 * Z.to_nat (g - 1) + j)%nat
        with (Z.to_nat (len (ilines f) - len (ilines f) mod 4) + j)%nat by lia.
      case_decide as Hcase; [done|].
      unfold voxel_at. rewrite lookup_ge_None_2; [done|].
      destruct Hvolume as [Hlen _]. unfold len in *. simpl in Hlen. lia.
  - intros header. apply event_loop_writes. lia.
Qed.

End Buffers.

(** ** The two conversions *)

Section Conversions.
Context {N : Numpy} {U : Utils} {C : Codec}.

Lemma bind_ok_inv {A B} (m : result A) (k : A -> result B) (b : B) :
  m ≫= k = Ok b -> exists a, m = Ok a /\ k a = Ok b.
Proof. destruct m as [a|e]; [eauto|discriminate]. Qed.

Lemma to_bytes_4_inv (z : Z) (v : list byte) :
  to_bytes z 4 = Ok v -> uint32 z.
Proof.
  unfold to_bytes, uint32. change (256 ^ Z.of_nat 4) with (2 ^ 32).
  destruct (Z.leb_spec 0 z), (Z.ltb_spec z (2 ^ 32)); simpl; done || lia.
Qed.

(** What a header returned by [make_header] tells about its arguments. *)
Lemma make_header_inv (w : World) (in_filename : string) (bits_per_voxel : Z)
    (header : list byte) :
  make_header w in_filename bits_per_voxel = Ok header ->
  exists f, segyio_open w in_filename = Ok f
            /\ 2 <= len (samples f) /\ 2 <= len (xlines f)
            /\ 2 <= len (ilines f) /\ uint32 bits_per_voxel.
Proof.
  unfold make_header. cbv zeta. intros H.
  apply bind_ok_inv in H as (? & _ & H).
  apply bind_ok_inv in H as (f & Hopen & H). exists f. split; [done|].
  do 3 apply bind_ok_inv in H as (? & _ & H).
  do 3 apply bind_ok_inv in H as (? & _ & H).
  apply bind_ok_inv in H as (? & Hs1%getitem_ok & H); [|lia].
  apply bind_ok_inv in H as (? & _ & H).
  apply bind_ok_inv in H as (? & Hx1%getitem_ok & H); [|lia].
  apply bind_ok_inv in H as (? & _ & H).
  apply bind_ok_inv in H as (? & Hi1%getitem_ok & H); [|lia].
  apply bind_ok_inv in H as (? & _ & H).
  apply bind_ok_inv in H as (? & Hv%to_bytes_4_inv & H).
  repeat split; lia || apply Hv.
Qed.

Lemma padded_shape_inv (shape p : Z * Z * Z) (bits_per_voxel : Z) :
  padded_shape shape bits_per_voxel = Ok p ->
  0 <= bits_per_voxel -> 1 <= bits_per_voxel <= 2048.
Proof.
  unfold padded_shape. intros H Hb.
  do 2 apply bind_ok_inv in H as (? & _ & H).
  apply bind_ok_inv in H as (multiple & Hm & H).
  apply bind_ok_inv in H as (p2 & Hp2 & _).
  unfold floordiv in Hm. destruct (Z.eqb_spec bits_per_voxel 0); [done|].
  injection Hm as <-. unfold pad in Hp2.
  destruct (Z.eqb_spec (2048 / bits_per_voxel) 0) as [Hz|Hz]; [done|].
  destruct (Z.le_gt_cases bits_per_voxel 2048); [lia|].
  rewrite Z.div_small in Hz; lia.
Qed.

Lemma shape3_volume (f : SegyFile) :
  regular f -> 1 <= len (ilines f) -> 1 <= len (xlines f) ->
  shape3 (volume f) = (len (ilines f), len (xlines f), len (samples f)).
Proof.
  intros Hf HI HX. unfold shape3, volume.
  destruct (ilines f) as [|number numbers] eqn:Hil;
    [unfold len in HI; simpl in HI; lia|].
  assert (Hin : number ∈ ilines f) by (rewrite Hil; left).
  pose proof (regular_shape2 f number Hf Hin HX) as Hshape.
  unfold shape2 in Hshape. injection Hshape as Hrows Hrow.
  rewrite <- Hil at 1. unfold len at 1. rewrite length_fmap. fold (len (ilines f)).
  simpl. by rewrite Hrows, Hrow, Hil.
Qed.

Lemma convert_segy_inmem_ok (w : World) (in_filename out_filename : string)
    (bits_per_voxel : Z) (f : SegyFile) (header : list byte) :
  segyio_open w in_filename = Ok f ->
  cube_bytes f <= total (virtual_memory w) ->
  make_header w in_filename bits_per_voxel = Ok header ->
  regular f -> 1 <= bits_per_voxel <= 2048 ->
  exists p,
    padded_shape (len (ilines f), len (xlines f), len (samples f))
      bits_per_voxel = Ok p
    /\ convert_segy_inmem w in_filename out_filename bits_per_voxel
       = (Ok (),
          write_file w out_filename
            (header
             ++ compress (padded_volume (volume f) (len (xlines f))
                            (len (samples f)) p) bits_per_voxel)).
Proof.
  intros Hopen Hmem Hheader Hf Hb.
  destruct (make_header_inv _ _ _ _ Hheader) as (f' & Hopen' & _ & HX & HI & _).
  rewrite Hopen in Hopen'. injection Hopen' as <-.
  destruct (padded_shape_aligned
              (len (ilines f), len (xlines f), len (samples f)) _ Hb)
    as (p & Hp & _ & _ & _ & Hle & _).
  exists p. split; [done|]. simpl in Hle.
  unfold convert_segy_inmem. rewrite Hopen.
  destruct (Z.gtb_spec (cube_bytes f) (total (virtual_memory w))); [lia|].
  unfold inmem_payload, cube. rewrite Hheader, bind_ok, Hopen, !bind_ok.
  fold (volume f).
  pose proof (shape3_volume f Hf ltac:(lia) ltac:(lia)) as Hshape.
  pose proof (regular_volume f Hf) as Hvolume.
  rewrite (data_padded_closed _ _ p), bind_ok;
    rewrite ?Hshape; simpl; done || lia.
Qed.

Lemma convert_segy_stream_ok (w : World) (in_filename out_filename : string)
    (bits_per_voxel : Z) (f : SegyFile) (header : list byte) :
  segyio_open w in_filename = Ok f ->
  make_header w in_filename bits_per_voxel = Ok header ->
  regular f -> 1 <= bits_per_voxel <= 2048 ->
  in_filename <> out_filename ->
  exists p,
    padded_shape (len (ilines f), len (xlines f), len (samples f))
      bits_per_voxel = Ok p
    /\ convert_segy_stream w in_filename out_filename bits_per_voxel
       = (Ok (),
          write_file w out_filename
            (header
             ++ concat
                  ((fun segy_buffer => compress segy_buffer bits_per_voxel)
                     <$> (plane_set
                            (padded_volume (volume f) (len (xlines f))
                               (len (samples f)) p)
                            <$> range (p.1.1 / 4))))).
Proof.
  intros Hopen Hheader Hf Hb Hne.
  destruct (make_header_inv _ _ _ _ Hheader) as (f' & Hopen' & _ & HX & HI & _).
  rewrite Hopen in Hopen'. injection Hopen' as <-.
  destruct (produce_plane_sets w in_filename bits_per_voxel f)
    as (p & Hp & Hproduce); [done|done|lia|lia|done|].
  exists p. split; [done|].
  unfold convert_segy_stream, run. rewrite Hheader, Hproduce.
  rewrite decide_False by (by intros [? _]).
  by rewrite event_loop_writes by lia.
Qed.

Lemma concat_groups {A} (n : nat) (l : list A) :
  length l = (4 * n)%nat ->
  concat ((fun k => take 4 (drop (4 * k) l)) <$> seq 0 n) = l.
Proof.
  revert l. induction n as [|n IH]; intros l Hl.
  - by destruct l.
  - simpl seq. rewrite fmap_cons, <- fmap_S_seq, <- list_fmap_compose.
    simpl concat. rewrite drop_0.
    etrans; [|apply (take_drop 4 l)]. f_equal.
    etrans; [|apply (IH (drop 4 l)); rewrite length_drop; lia].
    f_equal. apply list_fmap_ext. intros _ k _. simpl.
    rewrite drop_drop. do 2 f_equal. lia.
Qed.

Lemma concat_plane_sets (a : ndarray3) (g : Z) :
  0 <= g -> len a = 4 * g -> concat (plane_set a <$> range g) = a.
Proof.
  intros Hg Ha. unfold range, seqZ. rewrite <- list_fmap_compose.
  rewrite <- (concat_groups (Z.to_nat g) a) at 2 by (unfold len in Ha; lia).
  f_equal. apply list_fmap_ext. intros _ k _. simpl. unfold plane_set.
  do 2 f_equal. lia.
Qed.

Lemma inmem_ok_inv (w : World) (in_filename out_filename : string)
    (bits_per_voxel : Z) (f : SegyFile) :
  segyio_open w in_filename = Ok f ->
  is_ok (convert_segy_inmem w in_filename out_filename bits_per_voxel).1 = true ->
  cube_bytes f <= total (virtual_memory w)
  /\ (exists header, make_header w in_filename bits_per_voxel = Ok header)
  /\ 1 <= bits_per_voxel <= 2048.
Proof.
  intros Hopen. unfold convert_segy_inmem. rewrite Hopen.
  destruct (Z.gtb_spec (cube_bytes f) (total (virtual_memory w)));
    [discriminate|].
  destruct (inmem_payload w in_filename bits_per_voxel)
    as [[header compressed]|e] eqn:Hpayload; [|discriminate].
  intros _. split; [done|].
  unfold inmem_payload in Hpayload.
  apply bind_ok_inv in Hpayload as (header' & Hheader & Hpayload).
  apply bind_ok_inv in Hpayload as (data & _ & Hpayload).
  apply bind_ok_inv in Hpayload as (padded & Hpadded & _).
  unfold data_padded in Hpadded.
  apply bind_ok_inv in Hpadded as (p & Hp & _).
  destruct (make_header_inv _ _ _ _ Hheader) as (_ & _ & _ & _ & _ & Hbpv).
  split; [by exists header'|].
  eapply padded_shape_inv; [done|apply Hbpv].
Qed.

(** C1 (as amended): when the codec compresses a volume as the sequence of
    its groups of 4 inlines, then for every regular source volume and every
    bits-per-voxel value for which the whole-volume strategy produces its
    output file, the streaming strategy ends in the same way with the same
    file: the header followed by the same compressed payload. *)
Theorem stream_equals_inmem (w : World) (in_filename out_filename : string)
    (bits_per_voxel : Z) (f : SegyFile) :
  groupwise ->
  segyio_open w in_filename = Ok f -> regular f ->
  in_filename <> out_filename ->
  is_ok (convert_segy_inmem w in_filename out_filename bits_per_voxel).1 = true ->
  convert_segy_stream w in_filename out_filename bits_per_voxel
  = convert_segy_inmem w in_filename out_filename bits_per_voxel
  /\ exists header payload,
      make_header w in_filename bits_per_voxel = Ok header
      /\ disk (convert_segy_stream w in_filename out_filename bits_per_voxel).2
           !! out_filename
         = Some (Raw (header ++ payload)).
Proof.
  intros Hcodec Hopen Hf Hne Hok.
  destruct (inmem_ok_inv _ _ _ _ _ Hopen Hok) as (Hmem & [header Hheader] & Hb).
  destruct (convert_segy_inmem_ok w in_filename out_filename bits_per_voxel
              f header) as (p & Hp & Hinmem); [done..|].
  destruct (convert_segy_stream_ok w in_filename out_filename bits_per_voxel
              f header) as (p' & Hp' & Hstream); [done..|].
  rewrite Hp in Hp'. injection Hp' as <-.
  destruct (make_header_inv _ _ _ _ Hheader) as (f' & Hopen' & _ & HX & HI & _).
  rewrite Hopen in Hopen'. injection Hopen' as <-.
  destruct (padded_shape_aligned
              (len (ilines f), len (xlines f), len (samples f)) _ Hb)
    as (p' & Hp' & Hp0 & _ & _ & Hle0 & Hle1 & Hle2).
  rewrite Hp in Hp'. injection Hp' as <-. simpl in Hle0, Hle1, Hle2.
  pose proof (Z.div_mod p.1.1 4 ltac:(lia)) as Hdiv. rewrite Hp0 in Hdiv.
  set (padded := padded_volume (volume f) (len (xlines f)) (len (samples f)) p)
    in *.
  assert (Hpadded : has_shape3 padded p).
  { eapply has_shape3_padded_volume;
      [by apply regular_volume|unfold len in *; lia..]. }
  assert (Hpayload :
            compress padded bits_per_voxel
            = concat ((fun segy_buffer => compress segy_buffer bits_per_voxel)
                        <$> (plane_set padded <$> range (p.1.1 / 4)))).
  { rewrite <- (concat_plane_sets padded (p.1.1 / 4)) at 1;
      [|lia|destruct Hpadded as [-> _]; lia].
    apply Hcodec.
    - unfold range. rewrite (seqZ_cons 0) by lia. done.
    - apply Forall_fmap, Forall_forall. intros k Hk%elem_of_seqZ. simpl.
      destruct (plane_set_shape padded p k (p.1.1 / 4)) as [Hlen _];
        [done|lia|lia|].
      unfold len in Hlen. simpl in Hlen. lia. }
  split.
  - by rewrite Hstream, Hinmem, Hpayload.
  - exists header, (compress padded bits_per_voxel). split; [done|].
    rewrite Hstream, <- Hpayload. simpl. apply lookup_insert_eq.
Qed.

(** C6 (as amended): when the estimated raw size of the source volume
    (inline count x crossline count x sample count x 4 bytes) exceeds the
    total physical memory of the machine, whole-volume conversion fails with
    the out-of-memory [RuntimeError] before the header is made or the
    volume read, and leaves the file system as it was: no output file is
    created. *)
Theorem memory_guard (w : World) (in_filename out_filename : string)
    (bits_per_voxel : Z) (f : SegyFile) :
  segyio_open w in_filename = Ok f ->
  cube_bytes f > total (virtual_memory w) ->
  convert_segy_inmem w in_filename out_filename bits_per_voxel
  = (Err RuntimeError, w).
Proof.
  intros Hopen Hmem. unfold convert_segy_inmem. rewrite Hopen.
  by destruct (Z.gtb_spec (cube_bytes f) (total (virtual_memory w))); [|lia].
Qed.

(** C8: when segyio reports the source as malformed (or cannot open it at
    all), both the whole-volume and the streaming conversion fail with that
    error, and neither creates an output file: the file system is as it
    was. *)
Theorem source_error (w : World) (in_filename out_filename : string)
    (bits_per_voxel : Z) (e : error) :
  segyio_open w in_filename = Err e ->
  convert_segy_inmem w in_filename out_filename bits_per_voxel = (Err e, w)
  /\ convert_segy_stream w in_filename out_filename bits_per_voxel = (Err e, w).
Proof.
  intros Hopen. split.
  - unfold convert_segy_inmem. by rewrite Hopen.
  - unfold convert_segy_stream, run, make_header.
    rewrite (to_bytes_4 1), bind_ok, Hopen by lia. done.
Qed.

Lemma make_header_ok (w : World) (in_filename : string) (bits_per_voxel : Z)
    (f : SegyFile) :
  segyio_open w in_filename = Ok f ->
  np_float_to_bytes_4 -> encodable f -> uint32 bits_per_voxel ->
  exists header, make_header w in_filename bits_per_voxel = Ok header.
Proof.
  intros Hopen Hnp Henc Hbpv. pose proof Henc as (Hns & Hnx & Hni).
  destruct (two_values (samples f)) as (s0 & s1 & ss & Hs); [lia|].
  destruct (two_values (xlines f)) as (x0 & x1 & xs & Hx); [lia|].
  destruct (two_values (ilines f)) as (i0 & i1 & js & Hi); [lia|].
  eexists. by eapply make_header_fields.
Qed.

Lemma padded_shape_zero (shape : Z * Z * Z) :
  padded_shape shape 0 = Err ZeroDivisionError.
Proof.
  unfold padded_shape.
  destruct (pad_multiple shape.1.1 4) as (p0 & -> & _); [lia|].
  destruct (pad_multiple shape.1.2 4) as (p1 & -> & _); [lia|].
  reflexivity.
Qed.

(** C7 (as amended): the conversion does not check bits_per_voxel against
    the set 1, 2, 4, 8, 16.  On a source whose header can be encoded and
    which passes the memory guard, converted to an output path other than
    the source path, both strategies accept every bits_per_voxel from 1 to
    2048, whether or not it divides 2048 (3 is accepted), padding the
    sample axis to a multiple of [2048 // bits_per_voxel]; both fail with
    [ZeroDivisionError] for bits_per_voxel 0, the whole-volume strategy
    before anything is written; both fail with [OverflowError] for a
    bits_per_voxel which is negative or does not fit 32 bits, before
    anything is written. *)
Theorem bits_per_voxel_unchecked (w : World) (in_filename out_filename : string)
    (bits_per_voxel : Z) (method : string) (f : SegyFile) :
  segyio_open w in_filename = Ok f ->
  regular f -> encodable f -> np_float_to_bytes_4 ->
  cube_bytes f <= total (virtual_memory w) ->
  in_filename <> out_filename ->
  method = "InMemory"%string \/ method = "Stream"%string ->
  (bits_per_voxel < 0 \/ 2 ^ 32 <= bits_per_voxel ->
   convert_segy w in_filename out_filename bits_per_voxel method
   = (Err OverflowError, w))
  /\ (bits_per_voxel = 0 ->
      (convert_segy w in_filename out_filename bits_per_voxel method).1
      = Err ZeroDivisionError
      /\ (method = "InMemory"%string ->
          (convert_segy w in_filename out_filename bits_per_voxel method).2 = w))
  /\ (1 <= bits_per_voxel <= 2048 ->
      exists header payload p,
        make_header w in_filename bits_per_voxel = Ok header
        /\ padded_shape (len (ilines f), len (xlines f), len (samples f))
             bits_per_voxel = Ok p
        /\ p.2 mod (2048 / bits_per_voxel) = 0
        /\ convert_segy w in_filename out_filename bits_per_voxel method
           = (Ok (), write_file w out_filename (header ++ payload))).
Proof.
  intros Hopen Hf Henc Hnp Hmem Hne Hmethod.
  assert (Hguard : (cube_bytes f >? total (virtual_memory w)) = false)
    by (destruct (Z.gtb_spec (cube_bytes f) (total (virtual_memory w))); lia).
  assert (Hentry :
            convert_segy w in_filename out_filename bits_per_voxel method
            = if decide (method = "InMemory"%string)
              then match inmem_payload w in_filename bits_per_voxel with
                   | Err e => (Err e, w)
                   | Ok (header, compressed) =>
                       (Ok (), write_file w out_filename (header ++ compressed))
                   end
              else run w in_filename out_filename bits_per_voxel).
  { unfold convert_segy, convert_segy_inmem, convert_segy_stream.
    rewrite Hopen, Hguard. destruct Hmethod as [-> | ->]; by repeat case_decide. }
  split; [|split].
  - intros Hbpv. rewrite Hentry. unfold inmem_payload, run.
    rewrite (make_header_overflow _ _ _ f) by done. by case_decide.
  - intros ->.
    destruct (make_header_ok w in_filename 0 f) as [header Hheader];
      [done..|unfold uint32; lia|].
    pose proof Henc as (_ & _ & HI).
    rewrite Hentry. unfold inmem_payload, run, cube, data_padded.
    rewrite Hheader, Hopen, !bind_ok, padded_shape_zero.
    unfold produce, produce_setup. rewrite Hopen, bind_ok.
    destruct (two_values (ilines f)) as (i0 & i1 & js & Hi); [lia|].
    rewrite Hi. change (getitem (i0 :: i1 :: js) 0) with (Ok i0).
    rewrite bind_ok, padded_shape_zero.
    case_decide; [done|]. simpl.
    by rewrite (decide_False (P := _ /\ _)) by (by intros [? _]).
  - intros Hb.
    destruct (make_header_ok w in_filename bits_per_voxel f)
      as [header Hheader]; [done..|unfold uint32; lia|].
    destruct (convert_segy_inmem_ok w in_filename out_filename bits_per_voxel
                f header) as (p & Hp & Hinmem); [done..|].
    destruct (convert_segy_stream_ok w in_filename out_filename bits_per_voxel
                f header) as (p' & Hp' & Hstream); [done..|].
    rewrite Hp in Hp'. injection Hp' as <-.
    destruct (padded_shape_aligned
                (len (ilines f), len (xlines f), len (samples f)) _ Hb)
      as (p' & Hp' & _ & _ & Hp2 & _).
    rewrite Hp in Hp'. injection Hp' as <-.
    unfold convert_segy.
    destruct Hmethod as [-> | ->]; repeat case_decide; try done;
      eexists header, _, p; eauto.
Qed.

End Conversions.

(** ** The stand-ins at work *)

Lemma survey_regular (n_il : Z) : @regular numpy_Z (survey n_il).
Proof.
  unfold regular. apply Forall_forall. intros number _. split; [reflexivity|].
  simpl. by repeat constructor.
Qed.

Lemma lossless_groupwise : @groupwise numpy_Z lossless_codec.
Proof.
  intros groups rate _ _. simpl. unfold voxel_bytes.
  induction groups as [|group groups IH]; [done|].
  simpl. by rewrite map_app, concat_app, IH.
Qed.

Lemma stream_equals_inmem_witness :
  convert_segy_stream (U := utils_Z) (C := lossless_codec)
    (machine (Segy (survey 5)) 1000 1000) "in.segy" "out.sz" 16
  = convert_segy_inmem (U := utils_Z) (C := lossless_codec)
      (machine (Segy (survey 5)) 1000 1000) "in.segy" "out.sz" 16.
Proof.
  apply (stream_equals_inmem (U := utils_Z) (C := lossless_codec)
           (machine (Segy (survey 5)) 1000 1000) "in.segy" "out.sz" 16
           (survey 5)).
  - exact lossless_groupwise.
  - reflexivity.
  - apply survey_regular.
  - discriminate.
  - vm_compute. reflexivity.
Defined.

(** C1, as stated, at a codec which is deterministic but frames each
    compressed stream with the number of its planes: both strategies
    complete, and the two output files differ (in size already).  And with
    the lossless codec on a machine of 100 bytes of memory: the streaming
    strategy writes its file of 8192 bytes, the whole-volume strategy stops
    at the memory guard and writes none. *)
Lemma stream_inmem_differ :
  ((convert_segy_inmem (U := utils_Z) (C := framed_codec)
      (machine (Segy (survey 5)) 1000 1000) "in.segy" "out.sz" 16).1 = Ok ()
   /\ (convert_segy_stream (U := utils_Z) (C := framed_codec)
         (machine (Segy (survey 5)) 1000 1000) "in.segy" "out.sz" 16).1 = Ok ()
   /\ disk (convert_segy_stream (U := utils_Z) (C := framed_codec)
              (machine (Segy (survey 5)) 1000 1000) "in.segy" "out.sz" 16).2
        !! "out.sz"%string
      <> disk (convert_segy_inmem (U := utils_Z) (C := framed_codec)
                 (machine (Segy (survey 5)) 1000 1000) "in.segy" "out.sz" 16).2
           !! "out.sz"%string)
  /\ (convert_segy_inmem (U := utils_Z) (C := lossless_codec)
        (machine (Segy (survey 5)) 100 100) "in.segy" "out.sz" 16
      = (Err RuntimeError, machine (Segy (survey 5)) 100 100)
      /\ (convert_segy_stream (U := utils_Z) (C := lossless_codec)
            (machine (Segy (survey 5)) 100 100) "in.segy" "out.sz" 16).1
         = Ok ()
      /\ file_size
           (convert_segy_stream (U := utils_Z) (C := lossless_codec)
              (machine (Segy (survey 5)) 100 100) "in.segy" "out.sz" 16).2
           "out.sz" = 8192).
Proof.
  split; [|repeat split; vm_compute; reflexivity].
  split; [vm_compute; reflexivity|]. split; [vm_compute; reflexivity|].
  intros Hsame.
  assert (Hsize :
            file_size
              (convert_segy_stream (U := utils_Z) (C := framed_codec)
                 (machine (Segy (survey 5)) 1000 1000) "in.segy" "out.sz" 16).2
              "out.sz"
            = file_size
                (convert_segy_inmem (U := utils_Z) (C := framed_codec)
                   (machine (Segy (survey 5)) 1000 1000) "in.segy" "out.sz" 16).2
                "out.sz")
    by (unfold file_size; by rewrite Hsame).
  vm_compute in Hsize. discriminate.
Qed.

Lemma memory_guard_witness :
  cube_bytes (survey 5) > 100
  /\ convert_segy_inmem (U := utils_Z) (C := lossless_codec)
       (machine (Segy (survey 5)) 100 100) "in.segy" "out.sz" 4
     = (Err RuntimeError, machine (Segy (survey 5)) 100 100).
Proof.
  split; [reflexivity|].
  apply (memory_guard (U := utils_Z) (C := lossless_codec)
           (machine (Segy (survey 5)) 100 100) "in.segy" "out.sz" 4 (survey 5));
    reflexivity.
Defined.

(** C6, as stated, at a machine with 1000 bytes of memory of which 100 are
    available: the volume of 120 bytes exceeds the available memory, and the
    whole-volume conversion completes and creates the output file. *)
Lemma memory_guard_available :
  cube_bytes (survey 5)
  > available (virtual_memory (machine (Segy (survey 5)) 1000 100))
  /\ (convert_segy_inmem (U := utils_Z) (C := lossless_codec)
        (machine (Segy (survey 5)) 1000 100) "in.segy" "out.sz" 16).1 = Ok ()
  /\ file_size
       (convert_segy_inmem (U := utils_Z) (C := lossless_codec)
          (machine (Segy (survey 5)) 1000 100) "in.segy" "out.sz" 16).2
       "out.sz" = 8192.
Proof. repeat split; vm_compute; reflexivity. Qed.

Lemma source_error_witness :
  convert_segy_inmem (U := utils_Z) (C := lossless_codec)
    (machine BadSegy 1000 1000) "in.segy" "out.sz" 4
  = (Err SegyioError, machine BadSegy 1000 1000)
  /\ convert_segy_stream (U := utils_Z) (C := lossless_codec)
       (machine BadSegy 1000 1000) "in.segy" "out.sz" 4
     = (Err SegyioError, machine BadSegy 1000 1000).
Proof.
  apply (source_error (U := utils_Z) (C := lossless_codec)
           (machine BadSegy 1000 1000) "in.segy" "out.sz" 4 SegyioError).
  reflexivity.
Defined.

Lemma bits_per_voxel_unchecked_witness :
  exists header payload p,
    make_header (U := utils_Z) (machine (Segy (survey 5)) 1000 1000)
      "in.segy" 3 = Ok header
    /\ padded_shape (5, 3, 2) 3 = Ok p
    /\ p.2 mod (2048 / 3) = 0
    /\ convert_segy (U := utils_Z) (C := lossless_codec)
         (machine (Segy (survey 5)) 1000 1000) "in.segy" "out.sz" 3 "Stream"
       = (Ok (),
          write_file (machine (Segy (survey 5)) 1000 1000) "out.sz"
            (header ++ payload)).
Proof.
  destruct (bits_per_voxel_unchecked (U := utils_Z) (C := lossless_codec)
              (machine (Segy (survey 5)) 1000 1000) "in.segy" "out.sz" 3
              "Stream" (survey 5)) as (_ & _ & Haccepted).
  - reflexivity.
  - apply survey_regular.
  - apply survey_encodable. lia.
  - exact utils_Z_4.
  - vm_compute. discriminate.
  - discriminate.
  - by right.
  - apply Haccepted. lia.
Defined.

(** C7, as stated, at bits_per_voxel 3, which does not divide 2048 and is
    not among 1, 2, 4, 8, 16: both strategies complete and write the output
    file, of 4096 + 8 * 4 * 682 bytes. *)
Lemma bits_per_voxel_3_accepted :
  2048 mod 3 <> 0
  /\ (convert_segy (U := utils_Z) (C := lossless_codec)
        (machine (Segy (survey 5)) 1000 1000) "in.segy" "out.sz" 3
        "InMemory").1 = Ok ()
  /\ (convert_segy (U := utils_Z) (C := lossless_codec)
        (machine (Segy (survey 5)) 1000 1000) "in.segy" "out.sz" 3
        "Stream").1 = Ok ()
  /\ file_size
       (convert_segy (U := utils_Z) (C := lossless_codec)
          (machine (Segy (survey 5)) 1000 1000) "in.segy" "out.sz" 3
          "InMemory").2 "out.sz" = 25920
  /\ file_size
       (convert_segy (U := utils_Z) (C := lossless_codec)
          (machine (Segy (survey 5)) 1000 1000) "in.segy" "out.sz" 3
          "Stream").2 "out.sz" = 25920.
Proof. split; [discriminate|]. repeat split; vm_compute; reflexivity. Qed.

Lemma producer_buffers_witness :
  exists queued,
    produce (machine (Segy (survey 5)) 1000 1000) "in.segy" 16 = (queued, Ok ())
    /\ len queued = 8 / 4
    /\ Forall (fun segy_buffer => @has_shape3 numpy_Z segy_buffer (4, 4, 128))
         queued.
Proof.
  destruct (producer_buffers (C := lossless_codec)
              (machine (Segy (survey 5)) 1000 1000) "in.segy" 16 (survey 5))
    as (p & queued & Hp & Hproduce & Hlen & Hshapes & _).
  - reflexivity.
  - apply survey_regular.
  - vm_compute. discriminate.
  - vm_compute. discriminate.
  - lia.
  - assert (p = (8, 4, 128)) as -> by (vm_compute in Hp; congruence).
    exists queued. auto.
Defined.

(** ** The exceptions of the conversions *)

Section Exceptions.
Context {N : Numpy} {U : Utils} {C : Codec}.

Lemma bind_err_inv {A B} (m : result A) (k : A -> result B) (e : error) :
  m ≫= k = Err e -> m = Err e \/ exists a, m = Ok a /\ k a = Err e.
Proof. destruct m as [a|e']; [eauto|]. intros [= ->]. by left. Qed.

Lemma to_bytes_error (z : Z) (n : nat) (e : error) :
  to_bytes z n = Err e -> e = OverflowError.
Proof. unfold to_bytes. case_match; congruence. Qed.

Lemma segyio_open_error (w : World) (filename : string) (e : error) :
  segyio_open w filename = Err e -> e = SegyioError.
Proof. unfold segyio_open. repeat case_match; congruence. Qed.

Lemma make_header_error (w : World) (in_filename : string)
    (bits_per_voxel : Z) (e : error) :
  make_header w in_filename bits_per_voxel = Err e ->
  e = SegyioError \/ e = OverflowError \/ e = IndexError.
Proof.
  unfold make_header. cbv zeta. intros H.
  repeat match type of H with
         | _ ≫= _ = Err _ =>
             apply bind_err_inv in H as [H|(? & _ & H)]
         end;
    first [ apply to_bytes_error in H | apply segyio_open_error in H
          | apply getitem_error in H | discriminate H ];
    auto.
Qed.


Lemma padded_shape_error (shape : Z * Z * Z) (bits_per_voxel : Z) (e : error) :
  padded_shape shape bits_per_voxel = Err e -> e = ZeroDivisionError.
Proof.
  unfold padded_shape, pad, floordiv. intros H.
  repeat match type of H with
         | _ ≫= _ = Err _ =>
             apply bind_err_inv in H as [H|(? & _ & H)]
         end;
    repeat case_match; congruence.
Qed.

Lemma inmem_payload_error (w : World) (in_filename : string)
    (bits_per_voxel : Z) (e : error) :
  inmem_payload w in_filename bits_per_voxel = Err e ->
  e = SegyioError \/ e = OverflowError \/ e = IndexError
  \/ e = ZeroDivisionError.
Proof.
  unfold inmem_payload, cube, data_padded. intros H.
  apply bind_err_inv in H as [H|(? & _ & H)];
    [apply make_header_error in H; tauto|].
  apply bind_err_inv in H as [H|(? & _ & H)].
  { apply bind_err_inv in H as [H|(? & _ & H)]; [|discriminate].
    apply segyio_open_error in H. tauto. }
  apply bind_err_inv in H as [H|(? & _ & H)]; [|discriminate].
  apply bind_err_inv in H as [H|(? & _ & H)]; [|discriminate].
  apply padded_shape_error in H. tauto.
Qed.

Lemma read_planes_error (f : SegyFile) (n_xlines trace_length plane_set_id : Z)
    (planes : list Z) (segy_buffer : ndarray3) (e : error) :
  read_planes f n_xlines trace_length plane_set_id planes segy_buffer = Err e ->
  e = IndexError.
Proof.
  revert segy_buffer. induction planes as [|i planes IH]; intros segy_buffer H;
    [discriminate|].
  simpl in H.
  apply bind_err_inv in H as [H|(? & _ & H)]; [by apply getitem_error in H|].
  apply bind_err_inv in H as [H|(? & _ & H)]; [|by eapply IH].
  unfold assign_plane in H. case_match; congruence.
Qed.

Lemma produce_loop_error (f : SegyFile) (n_ilines n_xlines trace_length : Z)
    (p : Z * Z * Z) (plane_sets : list Z) (e : error) :
  (produce_loop f n_ilines n_xlines trace_length p plane_sets).2 = Err e ->
  e = IndexError.
Proof.
  induction plane_sets as [|k plane_sets IH]; [discriminate|].
  simpl. destruct (read_planes _ _ _ _ _ _) eqn:Hread.
  - destruct (produce_loop _ _ _ _ _ plane_sets). apply IH.
  - simpl. intros [= <-]. by eapply read_planes_error.
Qed.

Lemma produce_error (w : World) (in_filename : string) (bits_per_voxel : Z)
    (e : error) :
  (produce w in_filename bits_per_voxel).2 = Err e ->
  e = SegyioError \/ e = IndexError \/ e = ZeroDivisionError.
Proof.
  unfold produce.
  destruct (produce_setup w in_filename bits_per_voxel)
    as [[[f trace_length] p]|e'] eqn:Hsetup.
  - intros H%produce_loop_error. tauto.
  - simpl. intros [= <-]. unfold produce_setup in Hsetup.
    apply bind_err_inv in Hsetup as [H|(? & _ & H)];
      [apply segyio_open_error in H; tauto|].
    apply bind_err_inv in H as [H|(? & _ & H)];
      [apply getitem_error in H; tauto|].
    apply bind_err_inv in H as [H|(? & _ & H)]; [|discriminate].
    apply padded_shape_error in H. tauto.
Qed.

Lemma convert_segy_inmem_error (w : World) (in_filename out_filename : string)
    (bits_per_voxel : Z) (e : error) :
  (convert_segy_inmem w in_filename out_filename bits_per_voxel).1 = Err e ->
  e = SegyioError
  \/ (e = RuntimeError
      /\ exists f, segyio_open w in_filename = Ok f
                   /\ cube_bytes f > total (virtual_memory w))
  \/ e = OverflowError \/ e = IndexError \/ e = ZeroDivisionError.
Proof.
  unfold convert_segy_inmem.
  destruct (segyio_open w in_filename) as [f|e'] eqn:Hopen.
  - destruct (Z.gtb_spec (cube_bytes f) (total (virtual_memory w))).
    + simpl. intros [= <-]. right. left. split; [done|]. exists f. split; [done|lia].
    + destruct (inmem_payload w in_filename bits_per_voxel)
        as [[header compressed]|e'] eqn:Hpayload; [discriminate|].
      simpl. intros [= <-]. apply inmem_payload_error in Hpayload. tauto.
  - simpl. intros [= <-]. apply segyio_open_error in Hopen. tauto.
Qed.

Lemma convert_segy_stream_error (w : World) (in_filename out_filename : string)
    (bits_per_voxel : Z) (e : error) :
  (convert_segy_stream w in_filename out_filename bits_per_voxel).1 = Err e ->
  e = SegyioError \/ e = OverflowError \/ e = IndexError
  \/ e = ZeroDivisionError \/ e = OSError.
Proof.
  unfold convert_segy_stream, run.
  destruct (make_header w in_filename bits_per_voxel) as [header|e'] eqn:Hheader.
  - destruct (produce w in_filename bits_per_voxel) as [queued outcome] eqn:Hp.
    case_decide; [simpl; intros [= <-]; tauto|].
    destruct outcome as [[]|e']; simpl; [discriminate|]. intros [= <-].
    pose proof (produce_error w in_filename bits_per_voxel e') as H'.
    rewrite Hp in H'. specialize (H' eq_refl). tauto.
  - simpl. intros [= <-]. apply make_header_error in Hheader. tauto.
Qed.

(** X1: the entry point ends with its [NotImplementedError] exactly when
    the method is neither "InMemory" nor "Stream": neither strategy ends
    with it, and for any other method it comes before anything is read or
    written, whatever the other arguments are. *)
Theorem unknown_method (w : World) (in_filename out_filename : string)
    (bits_per_voxel : Z) (method : string) :
  ((convert_segy w in_filename out_filename bits_per_voxel method).1
   = Err NotImplementedError
   <-> method <> "InMemory"%string /\ method <> "Stream"%string)
  /\ ((convert_segy w in_filename out_filename bits_per_voxel method).1
      = Err NotImplementedError ->
      (convert_segy w in_filename out_filename bits_per_voxel method).2 = w).
Proof.
  unfold convert_segy. repeat case_decide; simpl.
  - split; [split; [|tauto]|];
      intros Herr%convert_segy_inmem_error;
      destruct Herr as [?|[[? _]|[?|[?|?]]]]; discriminate.
  - split; [split; [|tauto]|];
      intros Herr%convert_segy_stream_error;
      destruct Herr as [?|[?|[?|[?|?]]]]; discriminate.
  - tauto.
Qed.

(** X2: the whole-volume conversion ends with its out-of-memory
    [RuntimeError] exactly when the source opens and its raw size (4 bytes
    per voxel) is above the total memory of the machine: a size equal to
    the total memory passes.  The streaming conversion never ends with it,
    whatever the memory figures. *)
Theorem out_of_memory_only_from_guard (w : World)
    (in_filename out_filename : string) (bits_per_voxel : Z) :
  ((convert_segy_inmem w in_filename out_filename bits_per_voxel).1
   = Err RuntimeError
   <-> exists f, segyio_open w in_filename = Ok f
                 /\ total (virtual_memory w)
                    < len (samples f) * len (xlines f) * len (ilines f) * 4)
  /\ (convert_segy_stream w in_filename out_filename bits_per_voxel).1
     <> Err RuntimeError.
Proof.
  split; [split|].
  - intros H%convert_segy_inmem_error.
    destruct H as [?|[(_ & f & Hopen & Hmem)|[?|[?|?]]]]; try discriminate.
    exists f. split; [done|]. unfold cube_bytes in Hmem. lia.
  - intros (f & Hopen & Hmem). unfold convert_segy_inmem. rewrite Hopen.
    destruct (Z.gtb_spec (cube_bytes f) (total (virtual_memory w))); [done|].
    unfold cube_bytes in *. lia.
  - intros H%convert_segy_stream_error.
    destruct H as [?|[?|[?|[?|?]]]]; discriminate.
Qed.

End Exceptions.

(** ** The output file of a failed streaming conversion *)

Section Output.
Context {N : Numpy} {U : Utils} {C : Codec}.

Lemma produce_zero (w : World) (in_filename : string) (header : list byte) :
  make_header w in_filename 0 = Ok header ->
  produce w in_filename 0 = ([], Err ZeroDivisionError).
Proof.
  intros (f & Hopen & _ & _ & HI & _)%make_header_inv.
  destruct (two_values (ilines f)) as (i0 & i1 & js & Hi); [lia|].
  unfold produce, produce_setup. rewrite Hopen, bind_ok, Hi.
  change (getitem (i0 :: i1 :: js) 0) with (Ok i0).
  by rewrite bind_ok, padded_shape_zero.
Qed.

(** X4: once the header is made, a streaming conversion which fails has
    nevertheless opened the output file: whatever the path held is lost,
    and the file is left unclosed, the header being the first thing written
    to it.  A bits_per_voxel of 0 makes the conversion fail in that way,
    with [ZeroDivisionError] and the header as all that has been written,
    where the whole-volume conversion fails leaving the path as it was. *)
Theorem stream_failure_leaves_unclosed_file (w : World)
    (in_filename out_filename : string) (bits_per_voxel : Z)
    (header : list byte) :
  make_header w in_filename bits_per_voxel = Ok header ->
  (forall e,
      (convert_segy_stream w in_filename out_filename bits_per_voxel).1
      = Err e ->
      exists rest,
        disk (convert_segy_stream w in_filename out_filename
                bits_per_voxel).2 !! out_filename
        = Some (Unclosed (header ++ rest)))
  /\ (bits_per_voxel = 0 ->
      convert_segy_stream w in_filename out_filename bits_per_voxel
      = (Err ZeroDivisionError, unclosed_file w out_filename header)
      /\ (convert_segy_inmem w in_filename out_filename bits_per_voxel).2
         = w).
Proof.
  intros Hheader. split.
  - intros e. unfold convert_segy_stream, run. rewrite Hheader.
    destruct (produce w in_filename bits_per_voxel) as [queued outcome].
    case_decide as Hsame.
    + intros _. rewrite consume_writes. eexists. simpl.
      by rewrite lookup_insert_eq.
    + destruct outcome as [[]|e']; [discriminate|]. intros _.
      rewrite event_loop_writes by lia. eexists. simpl.
      by rewrite lookup_insert_eq.
  - intros ->. split.
    + unfold convert_segy_stream, run.
      rewrite Hheader, (produce_zero _ _ _ Hheader). simpl.
      by rewrite decide_False by (intros [_ ?]; lia).
    + unfold convert_segy_inmem.
      destruct (segyio_open w in_filename) as [f|e] eqn:Hopen; [|done].
      destruct (_ >? _); [done|].
      unfold inmem_payload, cube, data_padded.
      by rewrite Hheader, Hopen, !bind_ok, padded_shape_zero.
Qed.

End Output.

(** ** The queue *)

Section Queue.
Context {N : Numpy} {C : Codec}.

(** X5: the queue between the producer and the consumer never holds more
    than 16 buffers: a turn of the producer on a queue of at most 16 buffers
    leaves at most 16, stops with buffers still to put only on a queue of
    exactly 16, and neither loses nor reorders a buffer.  The event loop
    therefore hands the buffers to the consumer 16 at a time: all of them
    at once when there are at most 16, and otherwise the first 16, before
    the producer goes on with the rest. *)
Theorem queue_bounded (pending queue : list ndarray3) :
  (length queue <= 16)%nat ->
  (length (producer_turn pending queue).2 <= 16)%nat
  /\ ((producer_turn pending queue).1 <> [] ->
      length (producer_turn pending queue).2 = 16%nat)
  /\ (producer_turn pending queue).2 ++ (producer_turn pending queue).1
     = queue ++ pending
  /\ forall (fuel : nat) (bits_per_voxel : Z) (f : list byte),
      event_loop (S fuel) bits_per_voxel pending [] f
      = if decide (length pending <= 16)%nat
        then consume bits_per_voxel pending f
        else event_loop fuel bits_per_voxel (drop 16 pending) []
               (consume bits_per_voxel (take 16 pending) f).
Proof.
  intros Hqueue. rewrite producer_turn_fills. unfold QUEUE_MAXSIZE. simpl.
  rewrite length_app, length_take. split; [lia|]. split; [|split].
  - intros Hrest.
    destruct (decide (length pending <= 16 - length queue)%nat) as [Hle|Hgt];
      [by rewrite drop_ge in Hrest|lia].
  - by rewrite <- (assoc_L (++)), take_drop.
  - intros fuel bits_per_voxel f. rewrite producer_turn_fills.
    unfold QUEUE_MAXSIZE. simpl.
    case_decide as Hlen.
    + by rewrite drop_ge, take_ge by lia.
    + destruct (drop 16 pending) as [|segy_buffer rest] eqn:Hrest; [|done].
      apply (f_equal length) in Hrest. rewrite length_drop in Hrest.
      simpl in Hrest. lia.
Qed.

End Queue.

(** ** The size of the output file *)

Section Size.
Context {N : Numpy} {U : Utils} {C : Codec}.

Lemma make_header_length (w : World) (in_filename : string)
    (bits_per_voxel : Z) (f : SegyFile) :
  segyio_open w in_filename = Ok f ->
  np_float_to_bytes_4 -> encodable f -> uint32 bits_per_voxel ->
  exists header,
    make_header w in_filename bits_per_voxel = Ok header
    /\ length header = 4096%nat
    /\ forall payload, from_bytes (slice (header ++ payload) 0 4) = 1.
Proof.
  intros Hopen Hnp Henc Hbpv. pose proof Henc as (Hns & Hnx & Hni).
  destruct (two_values (samples f)) as (s0 & s1 & ss & Hs); [lia|].
  destruct (two_values (xlines f)) as (x0 & x1 & xs & Hx); [lia|].
  destruct (two_values (ilines f)) as (i0 & i1 & js & Hi); [lia|].
  exists (header_bytes f bits_per_voxel s0 s1 x0 x1 i0 i1).
  split; [by eapply make_header_fields|].
  split; [by apply length_header_bytes|].
  intros payload. unfold header_bytes. rewrite <- (assoc_L (++)).
  rewrite (slice_concat_4 _ _ 0 (little_endian 4 1));
    [reflexivity|by apply header_fields_4|reflexivity].
Qed.

Lemma length_compressed (rate c : Z) (buffers : list ndarray3) :
  Forall (fun segy_buffer => len (compress segy_buffer rate) = c) buffers ->
  len (concat ((fun segy_buffer => compress segy_buffer rate) <$> buffers))
  = len buffers * c.
Proof.
  unfold len. induction 1 as [|segy_buffer buffers Hc _ IH]; [done|].
  rewrite fmap_cons. simpl concat. rewrite length_app. simpl length. lia.
Qed.

Lemma whole_blocks (p0 p1 p2 bits_per_voxel n : Z) :
  1 <= bits_per_voxel -> (bits_per_voxel | 2048) ->
  p0 mod 4 = 0 -> p1 mod 4 = 0 -> p2 mod (2048 / bits_per_voxel) = 0 ->
  8 * n = p0 * p1 * p2 * bits_per_voxel ->
  n mod 4096 = 0.
Proof.
  intros Hb [m Hm] H0 H1 H2 Hn.
  assert (Hdiv : 2048 / bits_per_voxel = m)
    by (rewrite Hm; apply Z.div_mul; lia).
  rewrite Hdiv in H2.
  assert (m <> 0) by lia.
  apply Z.mod_divide in H0 as [a ->]; [|lia].
  apply Z.mod_divide in H1 as [b ->]; [|lia].
  apply Z.mod_divide in H2 as [c ->]; [|lia].
  apply Z.mod_divide; [lia|]. exists (a * b * c).
  assert (8 * n = 8 * (a * b * c * 4096)); [|lia].
  rewrite Hn.
  replace (a * 4 * (b * 4) * (c * m) * bits_per_voxel)
    with (16 * (a * b * c) * (m * bits_per_voxel)) by ring.
  rewrite <- Hm. ring.
Qed.

(** The sample axis is padded to whole blocks of 4 when bits_per_voxel
    divides 512. *)
Lemma sample_blocks (p2 bits_per_voxel : Z) :
  1 <= bits_per_voxel -> (bits_per_voxel | 512) ->
  p2 mod (2048 / bits_per_voxel) = 0 -> p2 mod 4 = 0.
Proof.
  intros Hb [m Hm] Hp2.
  assert (Hdiv : 2048 / bits_per_voxel = 4 * m).
  { replace 2048 with (4 * m * bits_per_voxel) by lia.
    apply Z.div_mul. lia. }
  rewrite Hdiv in Hp2.
  apply Z.mod_divide in Hp2 as [c ->]; [|lia].
  apply Z.mod_divide; [lia|]. exists (c * m). lia.
Qed.

(** X6: with a codec working at the fixed rate bits_per_voxel (64 *
    bits_per_voxel bits for every block of 4 x 4 x 4 voxels), and a
    bits_per_voxel which divides 512, as 1, 2, 4, 8 and 16 do, the output
    file of either strategy, written to a path other than the source, is
    the 4096 bytes of the header followed by [I' * X' * S' *
    bits_per_voxel / 8] bytes of payload, for the padded shape
    [(I', X', S')], and its size is a whole number of disk blocks of 4096
    bytes. *)
Theorem file_of_whole_blocks (w : World) (in_filename out_filename : string)
    (bits_per_voxel : Z) (method : string) (f : SegyFile) :
  fixed_rate bits_per_voxel ->
  segyio_open w in_filename = Ok f ->
  regular f -> encodable f -> np_float_to_bytes_4 ->
  cube_bytes f <= total (virtual_memory w) ->
  in_filename <> out_filename ->
  1 <= bits_per_voxel -> (bits_per_voxel | 512) ->
  method = "InMemory"%string \/ method = "Stream"%string ->
  exists content p,
    convert_segy w in_filename out_filename bits_per_voxel method
    = (Ok (), write_file w out_filename content)
    /\ padded_shape (len (ilines f), len (xlines f), len (samples f))
         bits_per_voxel = Ok p
    /\ 8 * (len content - DISK_BLOCK_BYTES)
       = p.1.1 * p.1.2 * p.2 * bits_per_voxel
    /\ len content mod DISK_BLOCK_BYTES = 0.
Proof.
  intros Hrate Hopen Hf Henc Hnp Hmem Hne Hb1 Hdvd Hmethod.
  assert (Hdvd' : (bits_per_voxel | 2048))
    by (apply Z.divide_trans with 512; [done|by exists 4]).
  assert (Hb : 1 <= bits_per_voxel <= 2048)
    by (split; [done|apply Z.divide_pos_le; [lia|done]]).
  destruct (make_header_length w in_filename bits_per_voxel f)
    as (header & Hheader & Hlen & _); [done..|unfold uint32; lia|].
  destruct (padded_shape_aligned
              (len (ilines f), len (xlines f), len (samples f)) _ Hb)
    as (p & Hp & Hp0 & Hp1 & Hp2 & Hle0 & Hle1 & Hle2).
  simpl in Hle0, Hle1, Hle2.
  pose proof (sample_blocks _ _ Hb1 Hdvd Hp2) as Hp2'.
  pose proof (Z.div_mod p.1.1 4 ltac:(lia)) as Hdiv0. rewrite Hp0 in Hdiv0.
  pose proof (Z.div_mod p.1.2 4 ltac:(lia)) as Hdiv1. rewrite Hp1 in Hdiv1.
  pose proof (Z.div_mod p.2 4 ltac:(lia)) as Hdiv2. rewrite Hp2' in Hdiv2.
  assert (Hpadded : has_shape3 (padded_volume (volume f) (len (xlines f))
                                  (len (samples f)) p) p).
  { eapply has_shape3_padded_volume;
      [by apply regular_volume|unfold len in *; lia..]. }
  assert (Hsize : exists content,
             convert_segy w in_filename out_filename bits_per_voxel method
             = (Ok (), write_file w out_filename content)
             /\ 8 * (len content - DISK_BLOCK_BYTES)
                = p.1.1 * p.1.2 * p.2 * bits_per_voxel).
  { unfold convert_segy. destruct Hmethod as [-> | ->]; repeat case_decide;
      try done.
    - destruct (convert_segy_inmem_ok w in_filename out_filename
                  bits_per_voxel f header) as (p' & Hp' & ->); [done..|].
      rewrite Hp in Hp'. injection Hp' as <-.
      eexists. split; [done|].
      pose proof (Hrate _ _ Hpadded Hp0 Hp1 Hp2') as Hc.
      unfold len in Hc |- *. rewrite length_app, Hlen.
      unfold DISK_BLOCK_BYTES. nia.
    - destruct (convert_segy_stream_ok w in_filename out_filename
                  bits_per_voxel f header) as (p' & Hp' & ->); [done..|].
      rewrite Hp in Hp'. injection Hp' as <-.
      eexists. split; [done|].
      assert (Hg : 0 <= p.1.1 / 4) by (unfold len in *; lia).
      remember (plane_set (padded_volume (volume f) (len (xlines f))
                             (len (samples f)) p) <$> range (p.1.1 / 4))
        as buffers eqn:Hbuffers.
      assert (Hc : len (concat
                          ((fun segy_buffer =>
                              compress segy_buffer bits_per_voxel)
                             <$> buffers))
                   = len buffers
                     * (4 / 4 * (p.1.2 / 4) * (p.2 / 4) * (8 * bits_per_voxel))).
      { apply length_compressed. subst buffers.
        apply Forall_fmap, Forall_forall. intros k Hk%elem_of_seqZ.
        simpl. apply (Hrate _ (4, p.1.2, p.2)); [|done..].
        apply plane_set_shape with (g := p.1.1 / 4); [done|lia|lia]. }
      assert (Hn : len buffers = p.1.1 / 4).
      { subst buffers. unfold len, range.
        rewrite length_fmap, length_seqZ. lia. }
      rewrite Hn in Hc. change (4 / 4) with 1 in Hc.
      unfold len in Hc |- *.
      rewrite length_app, Hlen. unfold DISK_BLOCK_BYTES. nia. }
  destruct Hsize as (content & Hconvert & Hsize).
  exists content, p. split; [done|]. split; [done|]. split; [done|].
  unfold DISK_BLOCK_BYTES in *.
  replace (len content) with ((len content - 4096) + 1 * 4096) by lia.
  rewrite Z.mod_add by lia.
  by apply (whole_blocks p.1.1 p.1.2 p.2 bits_per_voxel).
Qed.

(** X7: the streaming conversion has no memory guard.  A regular source
    whose raw size is above the total memory of the machine, which the
    whole-volume conversion rejects, is converted by the streaming
    conversion to a path other than the source: the output file is the
    header followed by the compressed buffers which the producer queues, in
    their order. *)
Theorem stream_without_memory_guard (w : World)
    (in_filename out_filename : string) (bits_per_voxel : Z) (f : SegyFile) :
  segyio_open w in_filename = Ok f ->
  regular f -> encodable f -> np_float_to_bytes_4 ->
  1 <= bits_per_voxel <= 2048 ->
  in_filename <> out_filename ->
  total (virtual_memory w)
  < len (samples f) * len (xlines f) * len (ilines f) * 4 ->
  (convert_segy_inmem w in_filename out_filename bits_per_voxel).1
  = Err RuntimeError
  /\ exists header queued,
      make_header w in_filename bits_per_voxel = Ok header
      /\ produce w in_filename bits_per_voxel = (queued, Ok ())
      /\ convert_segy_stream w in_filename out_filename bits_per_voxel
         = (Ok (),
            write_file w out_filename
              (header
               ++ concat ((fun segy_buffer =>
                             compress segy_buffer bits_per_voxel)
                            <$> queued))).
Proof.
  intros Hopen Hf Henc Hnp Hb Hne Hmem. split.
  - unfold convert_segy_inmem. rewrite Hopen.
    destruct (Z.gtb_spec (cube_bytes f) (total (virtual_memory w))); [done|].
    unfold cube_bytes in *. lia.
  - destruct (make_header_length w in_filename bits_per_voxel f)
      as (header & Hheader & _); [done..|unfold uint32; lia|].
    destruct Henc as (_ & HX & HI).
    destruct (produce_plane_sets w in_filename bits_per_voxel f)
      as (p & Hp & Hproduce); [done|done|lia|lia|done|].
    eexists header, _. split; [done|]. split; [done|].
    unfold convert_segy_stream, run. rewrite Hheader, Hproduce.
    rewrite decide_False by (by intros [? _]).
    by rewrite event_loop_writes by lia.
Qed.

(** X8: the output file can be taken apart by its own first field.  The
    number of header blocks read from its first 4 bytes, times the size of
    a disk block, is an offset which splits the file of either strategy,
    written to a path other than the source, into the buffer which
    [make_header] returns and the compressed payload: the padded volume
    compressed in one call for the whole-volume strategy, the buffers of
    the producer compressed one by one for the streaming strategy. *)
Theorem payload_offset (w : World) (in_filename out_filename : string)
    (bits_per_voxel : Z) (f : SegyFile) :
  segyio_open w in_filename = Ok f ->
  regular f -> encodable f -> np_float_to_bytes_4 ->
  cube_bytes f <= total (virtual_memory w) ->
  1 <= bits_per_voxel <= 2048 ->
  in_filename <> out_filename ->
  exists header data padded queued,
    make_header w in_filename bits_per_voxel = Ok header
    /\ cube w in_filename = Ok data
    /\ data_padded data bits_per_voxel = Ok padded
    /\ produce w in_filename bits_per_voxel = (queued, Ok ())
    /\ (exists content,
           convert_segy_inmem w in_filename out_filename bits_per_voxel
           = (Ok (), write_file w out_filename content)
           /\ let offset :=
                Z.to_nat (from_bytes (slice content 0 4) * DISK_BLOCK_BYTES) in
              take offset content = header
              /\ drop offset content = compress padded bits_per_voxel)
    /\ (exists content,
           convert_segy_stream w in_filename out_filename bits_per_voxel
           = (Ok (), write_file w out_filename content)
           /\ let offset :=
                Z.to_nat (from_bytes (slice content 0 4) * DISK_BLOCK_BYTES) in
              take offset content = header
              /\ drop offset content
                 = concat ((fun segy_buffer =>
                              compress segy_buffer bits_per_voxel)
                             <$> queued)).
Proof.
  intros Hopen Hf Henc Hnp Hmem Hb Hne.
  destruct (make_header_length w in_filename bits_per_voxel f)
    as (header & Hheader & Hlen & Hblocks); [done..|unfold uint32; lia|].
  pose proof Henc as (_ & HX & HI).
  destruct (convert_segy_inmem_ok w in_filename out_filename
              bits_per_voxel f header) as (p & Hp & Hinmem); [done..|].
  destruct (convert_segy_stream_ok w in_filename out_filename
              bits_per_voxel f header) as (p' & Hp' & Hstream); [done..|].
  rewrite Hp in Hp'. injection Hp' as <-.
  destruct (produce_plane_sets w in_filename bits_per_voxel f)
    as (p' & Hp' & Hproduce); [done|done|lia|lia|done|].
  rewrite Hp in Hp'. injection Hp' as <-.
  destruct (padded_shape_aligned
              (len (ilines f), len (xlines f), len (samples f)) _ Hb)
    as (p' & Hp' & _ & _ & _ & Hle0 & _).
  rewrite Hp in Hp'. injection Hp' as <-. simpl in Hle0.
  pose proof (shape3_volume f Hf ltac:(lia) ltac:(lia)) as Hshape.
  pose proof (regular_volume f Hf) as Hvolume.
  assert (Hdata : data_padded (volume f) bits_per_voxel
                  = Ok (padded_volume (volume f) (len (xlines f))
                          (len (samples f)) p)).
  { rewrite (data_padded_closed _ _ p); rewrite ?Hshape; simpl; done || lia. }
  assert (Hsplit : forall payload,
            let offset :=
              Z.to_nat (from_bytes (slice (header ++ payload) 0 4)
                        * DISK_BLOCK_BYTES) in
            take offset (header ++ payload) = header
            /\ drop offset (header ++ payload) = payload).
  { intros payload. rewrite Hblocks. unfold DISK_BLOCK_BYTES.
    change (Z.to_nat (1 * 4096)) with 4096%nat. simpl. rewrite <- Hlen.
    split; [apply take_app_length|apply drop_app_length]. }
  eexists header, (volume f), _, _.
  split; [done|]. split; [by unfold cube; rewrite Hopen|].
  split; [done|]. split; [done|]. split.
  - eexists. split; [exact Hinmem|]. apply Hsplit.
  - eexists. split; [exact Hstream|]. apply Hsplit.
Qed.

End Size.

(** ** Volumes which need no padding *)

Section Aligned.
Context {N : Numpy}.

Lemma pad_aligned (orig multiple : Z) :
  multiple <> 0 -> orig mod multiple = 0 -> pad orig multiple = Ok orig.
Proof.
  intros Hm Ho. unfold pad.
  destruct (Z.eqb_spec multiple 0); [done|]. by rewrite Ho.
Qed.

(** X9: a volume whose shape is aligned already (inline and crossline
    counts multiples of 4, sample count a multiple of
    [2048 // bits_per_voxel]) is not padded: the padded shape is the shape
    of the volume, and the array handed to the codec is the volume
    itself. *)
Theorem aligned_volume_unpadded (data : ndarray3) (bits_per_voxel : Z) :
  has_shape3 data (shape3 data) ->
  1 <= bits_per_voxel <= 2048 ->
  (shape3 data).1.1 mod 4 = 0 ->
  (shape3 data).1.2 mod 4 = 0 ->
  (shape3 data).2 mod (2048 / bits_per_voxel) = 0 ->
  padded_shape (shape3 data) bits_per_voxel = Ok (shape3 data)
  /\ data_padded data bits_per_voxel = Ok data.
Proof.
  intros Hdata Hb H0 H1 H2.
  assert (Hp : padded_shape (shape3 data) bits_per_voxel = Ok (shape3 data)).
  { unfold padded_shape.
    destruct (sample_multiple bits_per_voxel Hb) as (m & Hm & -> & Hpos).
    rewrite !pad_aligned, !bind_ok, Hm, bind_ok by (done || lia).
    rewrite pad_aligned by (done || lia).
    by destruct (shape3 data) as [[k m] n]. }
  split; [done|].
  rewrite (data_padded_closed data bits_per_voxel (shape3 data))
    by (done || lia).
  f_equal. unfold padded_volume.
  change (len data) with (shape3 data).1.1.
  destruct Hdata as [_ Hplanes].
  destruct (shape3 data) as [[k m] n]. simpl in *.
  rewrite Z.sub_diag. simpl replicate. rewrite app_nil_r.
  etrans; [|apply list_fmap_id].
  apply Forall_fmap_ext_1. eapply Forall_impl; [exact Hplanes|].
  intros plane Hplane. simpl.
  rewrite (assign2_zeros m n m n plane Hplane) by lia.
  rewrite !Z.sub_diag. simpl replicate. rewrite app_nil_r.
  etrans; [|apply list_fmap_id].
  apply list_fmap_ext. intros _ row _. unfold zeros1. simpl.
  apply app_nil_r.
Qed.

End Aligned.

(** ** The voxels handed to the codec *)

Section Voxels.
Context {N : Numpy}.

(** X15: whatever the codec, the two strategies hand it the same voxels in
    the same order: for a regular source the buffers which the producer
    queues, one for every 4 inlines ([(I + 3) // 4] of them), put one after
    the other, are the padded array which the whole-volume conversion
    compresses in one call. *)
Theorem buffers_are_padded_volume (w : World) (in_filename : string)
    (bits_per_voxel : Z) (f : SegyFile) :
  segyio_open w in_filename = Ok f ->
  regular f -> 1 <= len (ilines f) -> 1 <= len (xlines f) ->
  1 <= bits_per_voxel <= 2048 ->
  exists queued data padded,
    produce w in_filename bits_per_voxel = (queued, Ok ())
    /\ cube w in_filename = Ok data
    /\ data_padded data bits_per_voxel = Ok padded
    /\ concat queued = padded
    /\ len queued = (len (ilines f) + 3) / 4.
Proof.
  intros Hopen Hf HI HX Hb.
  destruct (produce_plane_sets w in_filename bits_per_voxel f)
    as (p & Hp & Hproduce); [done..|].
  destruct (padded_shape_aligned
              (len (ilines f), len (xlines f), len (samples f)) _ Hb)
    as (p' & Hp' & Hp0 & _ & _ & Hle0 & Hle1 & Hle2).
  rewrite Hp in Hp'. injection Hp' as <-. simpl in Hle0, Hle1, Hle2.
  pose proof (shape3_volume f Hf HI HX) as Hshape.
  pose proof (regular_volume f Hf) as Hvolume.
  pose proof (Z.div_mod p.1.1 4 ltac:(lia)) as Hdiv. rewrite Hp0 in Hdiv.
  assert (Hpadded : has_shape3 (padded_volume (volume f) (len (xlines f))
                                  (len (samples f)) p) p).
  { eapply has_shape3_padded_volume; [done|unfold len in *; lia..]. }
  assert (Hdata : data_padded (volume f) bits_per_voxel
                  = Ok (padded_volume (volume f) (len (xlines f))
                          (len (samples f)) p)).
  { rewrite (data_padded_closed _ _ p); rewrite ?Hshape; simpl; done || lia. }
  eexists _, (volume f), _. split; [done|].
  split; [by unfold cube; rewrite Hopen|]. split; [done|]. split.
  - apply concat_plane_sets; [lia|]. destruct Hpadded as [-> _]. lia.
  - unfold len at 1, range. rewrite length_fmap, length_seqZ.
    assert (p.1.1 / 4 = (len (ilines f) + 3) / 4); [|lia].
    apply Z.div_unique with (r := len (ilines f) + 3 - p.1.1); lia.
Qed.

End Voxels.

(** ** Reading the diagonals from the SEG-Y volume *)

Section Diagonals.
Context {N : Numpy}.

Lemma lookup_concat_uniform {A} (ls : list (list A)) (m i x : nat) :
  Forall (fun l => length l = m) ls -> (x < m)%nat ->
  concat ls !! (i * m + x)%nat = ls !! i ≫= (.!! x).
Proof.
  intros Hls Hx. revert i. induction Hls as [|l ls Hl _ IH]; intros i.
  - by rewrite lookup_nil.
  - destruct i as [|i]; simpl.
    + by rewrite lookup_app_l by lia.
    + rewrite lookup_app_r by lia.
      replace (m + i * m + x - length l)%nat with (i * m + x)%nat by lia.
      apply IH.
Qed.

Lemma trace_regular (f : SegyFile) (i x : Z) :
  regular f -> 0 <= i < len (ilines f) -> 0 <= x < len (xlines f) ->
  exists plane,
    volume f !! Z.to_nat i = Some plane
    /\ plane !! Z.to_nat x = Some (grid_trace f i x)
    /\ len (grid_trace f i x) = len (samples f)
    /\ trace f (i * len (xlines f) + x) = Ok (grid_trace f i x).
Proof.
  intros Hf Hi Hx. destruct (regular_volume f Hf) as [Hlen Hplanes].
  simpl in *.
  destruct (lookup_lt_is_Some_2 (volume f) (Z.to_nat i)) as [plane Hplane];
    [unfold len in *; lia|].
  pose proof (Forall_lookup_1 _ _ _ _ Hplanes Hplane) as [Hrows Hrow].
  simpl in *.
  destruct (lookup_lt_is_Some_2 plane (Z.to_nat x)) as [row Hrowx];
    [unfold len in *; lia|].
  pose proof (Forall_lookup_1 _ _ _ _ Hrow Hrowx) as Hsamples. simpl in *.
  assert (Hgrid : grid_trace f i x = row).
  { unfold grid_trace. rewrite Hplane. simpl. by rewrite Hrowx. }
  exists plane. rewrite Hgrid. do 3 (split; [done|]).
  unfold trace. apply getitem_lookup; [unfold len; nia|].
  fold (volume f).
  replace (Z.to_nat (i * len (xlines f) + x))
    with (Z.to_nat i * length (xlines f) + Z.to_nat x)%nat
    by (unfold len; nia).
  rewrite lookup_concat_uniform.
  - rewrite Hplane. simpl. done.
  - eapply Forall_impl; [exact Hplanes|]. intros p [Hp _]. simpl in Hp.
    unfold len in Hp. lia.
  - unfold len in *. lia.
Qed.

Lemma read_diagonal_rows (f : SegyFile) (index : Z -> Z)
    (tr : Z -> list voxel) (n_samples : Z) (ds : list Z) (rows : ndarray2) :
  (forall d, d ∈ ds ->
             0 <= d < len rows /\ trace f (index d) = Ok (tr d)
             /\ len (tr d) = n_samples) ->
  Forall (fun row => len row = n_samples) rows ->
  exists rows',
    read_diagonal f index ds rows = Ok rows'
    /\ length rows' = length rows
    /\ forall j : nat,
        rows' !! j = if decide (Z.of_nat j ∈ ds) then Some (tr (Z.of_nat j))
                     else rows !! j.
Proof.
  revert rows. induction ds as [|d ds IH]; intros rows Hds Hrows.
  - exists rows. split; [done|]. split; [done|]. intros j.
    case_decide as Hj; [by apply elem_of_nil in Hj|done].
  - destruct (Hds d) as (Hd & Htrace & Hlen); [left|].
    simpl. rewrite Htrace, bind_ok. unfold assign_row.
    destruct (lookup_lt_is_Some_2 rows (Z.to_nat d)) as [row Hrow];
      [unfold len in *; lia|].
    rewrite Hrow, bind_ok.
    pose proof (Forall_lookup_1 _ _ _ _ Hrows Hrow) as Hsamples. simpl in *.
    assert (Hassign : assign1 row (len row) (tr d) = tr d).
    { unfold assign1, len in *.
      rewrite take_ge, drop_ge by lia. apply app_nil_r. }
    rewrite Hassign.
    destruct (IH (<[Z.to_nat d := tr d]> rows)) as (rows' & Hread & Hlen' & Hlookup).
    + intros d' Hd'. destruct (Hds d') as (? & ? & ?); [by right|].
      unfold len in *. by rewrite length_insert.
    + by apply Forall_insert.
    + exists rows'. split; [done|]. rewrite Hlen', length_insert.
      split; [done|]. intros j. rewrite Hlookup.
      destruct (decide (Z.of_nat j ∈ ds)) as [Hin|Hout].
      * rewrite decide_True by by right. done.
      * destruct (decide (Z.of_nat j = d)) as [<-|Hne].
        -- rewrite decide_True by left. rewrite Nat2Z.id.
           apply list_lookup_insert_eq.
           apply lookup_lt_Some in Hrow. lia.
        -- rewrite decide_False
             by (rewrite elem_of_cons; intros [?|?]; done).
           apply list_lookup_insert_ne. lia.
Qed.

(** The array read for a valid line: row [d] is the trace at inline
    position [d + max(l,0)] and crossline position [d + max(-l,0)]. *)
Lemma slice_segy_valid (f : SegyFile) (l : Z) :
  regular f ->
  - (len (xlines f) - 1) <= l <= len (ilines f) - 1 ->
  slice_segy f l
  = Ok ((fun d => grid_trace f (d + Z.max l 0) (d + Z.max (- l) 0))
          <$> range (if l >=? 0 then Z.min (len (ilines f) - l) (len (xlines f))
                     else Z.min (len (ilines f)) (len (xlines f) + l))).
Proof.
  intros Hf Hl. unfold slice_segy.
  rewrite diagonal_length_valid, bind_ok by done.
  set (n := if l >=? 0 then Z.min (len (ilines f) - l) (len (xlines f))
            else Z.min (len (ilines f)) (len (xlines f) + l)).
  assert (Hn : 0 <= n) by (unfold n, len in *; destruct (Z.geb_spec l 0); lia).
  assert (Hrows :
            forall index,
              (forall d, 0 <= d < n ->
                         index d = (d + Z.max l 0) * len (xlines f)
                                   + (d + Z.max (- l) 0)) ->
              read_diagonal f index (range n) (zeros2 (n, len (samples f)))
              = Ok ((fun d => grid_trace f (d + Z.max l 0) (d + Z.max (- l) 0))
                      <$> range n)).
  { intros index Hindex.
    destruct (read_diagonal_rows f index
                (fun d => grid_trace f (d + Z.max l 0) (d + Z.max (- l) 0))
                (len (samples f)) (range n) (zeros2 (n, len (samples f))))
      as (rows' & -> & Hlen & Hlookup).
    - intros d Hd%elem_of_seqZ.
      destruct (trace_regular f (d + Z.max l 0) (d + Z.max (- l) 0) Hf)
        as (plane & _ & _ & Hsamples & Htrace);
        [unfold n in *; destruct (Z.geb_spec l 0); lia..|].
      split; [|split; [|done]].
      + unfold zeros2, len. simpl. rewrite length_replicate. lia.
      + by rewrite Hindex by lia.
    - unfold zeros2, zeros1. simpl. apply Forall_replicate.
      unfold len. rewrite length_replicate. lia.
    - f_equal. apply list_eq. intros j. rewrite Hlookup.
      rewrite list_lookup_fmap. unfold range.
      destruct (decide (Z.of_nat j < n)) as [Hj|Hj].
      + rewrite decide_True by (apply elem_of_seqZ; lia).
        rewrite lookup_seqZ_lt by lia. simpl. do 3 f_equal; lia.
      + rewrite decide_False by (rewrite elem_of_seqZ; lia).
        rewrite lookup_seqZ_ge by lia. simpl.
        apply lookup_ge_None. unfold zeros2. simpl.
        rewrite length_replicate. lia. }
  destruct (Z.geb_spec l 0); apply Hrows; intros d Hd; lia.
Qed.

(** X10: for a regular volume and a line index [l] from [-(X-1)] to [I-1]
    the loop over [d] reads no trace outside the volume: it fills an array
    of shape (diagonal length, samples per trace) whose row [d] is the
    trace at inline position [d + max(l,0)] and crossline position
    [d + max(-l,0)]. *)
Theorem slice_segy_rows (f : SegyFile) (l : Z) :
  regular f ->
  - (len (xlines f) - 1) <= l <= len (ilines f) - 1 ->
  exists n rows,
    get_correlated_diagonal_length l (len (ilines f)) (len (xlines f)) = Ok n
    /\ slice_segy f l = Ok rows
    /\ has_shape2 rows (n, len (samples f))
    /\ forall d, 0 <= d < n ->
         exists plane row,
           volume f !! Z.to_nat (d + Z.max l 0) = Some plane
           /\ plane !! Z.to_nat (d + Z.max (- l) 0) = Some row
           /\ rows !! Z.to_nat d = Some row.
Proof.
  intros Hf Hl. eexists _, _.
  split; [by apply diagonal_length_valid|].
  split; [by apply slice_segy_valid|].
  set (n := if l >=? 0 then Z.min (len (ilines f) - l) (len (xlines f))
            else Z.min (len (ilines f)) (len (xlines f) + l)).
  assert (Hn : 0 <= n) by (unfold n, len in *; destruct (Z.geb_spec l 0); lia).
  assert (Hgrid : forall d, 0 <= d < n ->
            exists plane,
              volume f !! Z.to_nat (d + Z.max l 0) = Some plane
              /\ plane !! Z.to_nat (d + Z.max (- l) 0)
                 = Some (grid_trace f (d + Z.max l 0) (d + Z.max (- l) 0))
              /\ len (grid_trace f (d + Z.max l 0) (d + Z.max (- l) 0))
                 = len (samples f)).
  { intros d Hd.
    destruct (trace_regular f (d + Z.max l 0) (d + Z.max (- l) 0) Hf)
      as (plane & ? & ? & ? & _);
      [unfold n in *; destruct (Z.geb_spec l 0); lia..|].
    by exists plane. }
  split; [split|].
  - unfold len, range. simpl. rewrite length_fmap, length_seqZ. lia.
  - apply Forall_fmap, Forall_forall. intros d Hd%elem_of_seqZ. simpl.
    by destruct (Hgrid d) as (_ & _ & _ & ?).
  - intros d Hd. destruct (Hgrid d Hd) as (plane & Hplane & Hrow & _).
    exists plane, (grid_trace f (d + Z.max l 0) (d + Z.max (- l) 0)).
    split; [done|]. split; [done|].
    rewrite list_lookup_fmap. unfold range.
    rewrite lookup_seqZ_lt by lia. simpl. do 3 f_equal; lia.
Qed.

Lemma read_lines_last (f : SegyFile) (lines : list Z) (l : Z)
    (bound : option ndarray2) :
  Forall (fun l' => is_ok (slice_segy f l') = true) lines ->
  read_lines f (lines ++ [l]) bound
  = slice_segy f l ≫= fun rows => Ok (Some rows).
Proof.
  intros Hlines. revert bound.
  induction Hlines as [|l' lines Hl' _ IH]; intros bound; simpl.
  - by destruct (slice_segy f l).
  - destruct (slice_segy f l'); [|done]. apply IH.
Qed.

(** X11: the script reads 40 lines, from [LINE_NO] to [LINE_NO + 39], and
    each one replaces the one before: when all of them are valid line
    indices of a regular volume, the array the image is made of is the
    diagonal of line [LINE_NO + 39], not of [LINE_NO]. *)
Theorem last_line_kept (w : World) (path : string) (LINE_NO : Z)
    (f : SegyFile) :
  segyio_open w path = Ok f -> regular f ->
  - (len (xlines f) - 1) <= LINE_NO -> LINE_NO + 39 <= len (ilines f) - 1 ->
  exists rows,
    slice_segy f (LINE_NO + 39) = Ok rows
    /\ read_correlated_diagonal w path LINE_NO = Ok (Some rows).
Proof.
  intros Hopen Hf Hlow Hhigh.
  eexists. split; [apply slice_segy_valid; [done|lia]|].
  unfold read_correlated_diagonal. rewrite Hopen, bind_ok.
  change 40 with (39 + 1). rewrite seqZ_app by lia.
  change (seqZ (LINE_NO + 39) 1) with [LINE_NO + 39].
  rewrite read_lines_last.
  - by rewrite slice_segy_valid by (done || lia).
  - apply Forall_forall. intros l Hl%elem_of_seqZ.
    by rewrite slice_segy_valid by (done || lia).
Qed.

End Diagonals.

(** ** The diagonals as a partition of the traces *)

Lemma diagonal_trace_numbers_inv (l n_il n_xl : Z) (numbers : list Z) :
  diagonal_trace_numbers l n_il n_xl = Ok numbers ->
  - (n_xl - 1) <= l <= n_il - 1
  /\ numbers
     = (fun d => (d + Z.max l 0) * n_xl + (d + Z.max (- l) 0))
         <$> range (if l >=? 0 then Z.min (n_il - l) n_xl
                    else Z.min n_il (n_xl + l)).
Proof.
  unfold diagonal_trace_numbers, get_correlated_diagonal_length.
  destruct (Z.leb_spec (- (n_xl - 1)) l), (Z.leb_spec l (n_il - 1));
    simpl; try discriminate.
  destruct (Z.geb_spec l 0); simpl; intros [= <-]; (split; [lia|]);
    apply list_fmap_ext; intros _ d _; lia.
Qed.

Lemma diagonal_trace_numbers_valid (l n_il n_xl : Z) :
  - (n_xl - 1) <= l <= n_il - 1 ->
  diagonal_trace_numbers l n_il n_xl
  = Ok ((fun d => (d + Z.max l 0) * n_xl + (d + Z.max (- l) 0))
          <$> range (if l >=? 0 then Z.min (n_il - l) n_xl
                     else Z.min n_il (n_xl + l))).
Proof.
  intros Hl. unfold diagonal_trace_numbers.
  rewrite diagonal_length_valid, bind_ok by done.
  destruct (Z.geb_spec l 0); f_equal;
    apply list_fmap_ext; intros _ d _; lia.
Qed.

(** X12: the diagonals partition the volume: every trace number [t] of an
    I x X volume is read for exactly one line index, the difference of its
    inline and crossline positions [t // X - t % X]. *)
Theorem diagonals_partition (n_il n_xl t : Z) :
  1 <= n_xl -> 0 <= t < n_il * n_xl ->
  exists numbers,
    diagonal_trace_numbers (t / n_xl - t mod n_xl) n_il n_xl = Ok numbers
    /\ t ∈ numbers
    /\ forall l numbers',
        diagonal_trace_numbers l n_il n_xl = Ok numbers' ->
        t ∈ numbers' -> l = t / n_xl - t mod n_xl.
Proof.
  intros HX' Ht.
  assert (HX : 0 < n_xl) by lia.
  pose proof (Z.div_mod t n_xl ltac:(lia)) as Hdiv.
  pose proof (Z.mod_pos_bound t n_xl HX) as Hmod.
  assert (Hi : 0 <= t / n_xl < n_il).
  { split; [apply Z.div_pos; lia|apply Z.div_lt_upper_bound; lia]. }
  set (i := t / n_xl) in *. set (x := t mod n_xl) in *.
  eexists. split; [apply diagonal_trace_numbers_valid; lia|]. split.
  - apply list_elem_of_fmap.
    destruct (Z.geb_spec (i - x) 0).
    + exists x. split; [lia|]. apply elem_of_seqZ. lia.
    + exists i. split; [lia|]. apply elem_of_seqZ. lia.
  - intros l numbers' [Hl ->]%diagonal_trace_numbers_inv
      (d & Hd & Hin%elem_of_seqZ)%list_elem_of_fmap.
    assert (Hcoordinates :
              trace_coordinates n_xl t = (d + Z.max l 0, d + Z.max (- l) 0)).
    { rewrite Hd. apply trace_coordinates_row.
      destruct (Z.geb_spec l 0); lia. }
    unfold trace_coordinates in Hcoordinates. fold i x in Hcoordinates.
    injection Hcoordinates as -> ->. lia.
Qed.

(** X13: the trace numbers read for a line are all trace numbers of the
    volume, and go up in steps of [X + 1]: one inline and one crossline
    further each. *)
Theorem diagonal_stride (l n_il n_xl : Z) (numbers : list Z) :
  diagonal_trace_numbers l n_il n_xl = Ok numbers ->
  (forall t, t ∈ numbers -> 0 <= t < n_il * n_xl)
  /\ forall (d : nat) t t',
      numbers !! d = Some t -> numbers !! S d = Some t' ->
      t' = t + n_xl + 1.
Proof.
  intros [Hl ->]%diagonal_trace_numbers_inv. split.
  - intros t (d & -> & Hd%elem_of_seqZ)%list_elem_of_fmap.
    destruct (Z.geb_spec l 0); nia.
  - intros d t t'. rewrite !list_lookup_fmap. unfold range.
    intros Ht Ht'.
    destruct (seqZ 0 _ !! d) as [a|] eqn:Ha; [|discriminate].
    destruct (seqZ 0 _ !! S d) as [b|] eqn:Hb; [|discriminate].
    apply lookup_seqZ in Ha as [-> _]. apply lookup_seqZ in Hb as [-> _].
    simpl in Ht, Ht'. injection Ht as <-. injection Ht' as <-. lia.
Qed.

(** ** The length of the header *)

Section Header_length.
Context {N : Numpy} {U : Utils}.

Lemma length_slice_assign (buffer : list byte) (i j : nat) (v : list byte)
    (n : Z) :
  Z.of_nat (length buffer) = n -> (i <= j)%nat -> Z.of_nat j <= n ->
  Z.of_nat (length (slice_assign buffer i j v))
  = n + Z.of_nat (length v) - (Z.of_nat j - Z.of_nat i).
Proof.
  unfold slice_assign. intros Hn Hij Hj.
  rewrite !length_app, length_take, length_drop. lia.
Qed.

Lemma to_bytes_length (z : Z) (n : nat) (v : list byte) :
  to_bytes z n = Ok v -> len v = Z.of_nat n.
Proof.
  unfold to_bytes, len. case_match; [|discriminate].
  intros [= <-]. by rewrite length_little_endian.
Qed.

Lemma getitem_ok_lookup {A} (a : list A) (i : Z) (x : A) :
  0 <= i -> getitem a i = Ok x -> a !! Z.to_nat i = Some x.
Proof.
  intros Hi. unfold getitem.
  destruct (Z.ltb_spec i 0); [lia|].
  destruct (Z.ltb_spec i 0); [lia|].
  destruct (a !! Z.to_nat i); congruence.
Qed.

Local Ltac slice_length :=
  lazymatch goal with
  | |- Z.of_nat (length (slice_assign _ _ _ _)) = _ =>
      eapply length_slice_assign; [slice_length|lia|lia]
  | |- Z.of_nat (length (bytearray _)) = _ =>
      unfold bytearray; rewrite length_replicate; reflexivity
  end.

(** X14: [make_header] does not check the width of the encoded geometry
    values.  The buffer it returns has 4096 bytes exactly when the six
    values written with [np_float_to_bytes] take 24 bytes together: a slice
    assignment of another length resizes the bytearray, so every byte which
    an encoded value has above or below 4 is a byte more or less in the
    header. *)
Theorem header_length (w : World) (in_filename : string) (bits_per_voxel : Z)
    (header : list byte) :
  make_header w in_filename bits_per_voxel = Ok header ->
  exists f s0 s1 x0 x1 i0 i1,
    segyio_open w in_filename = Ok f
    /\ samples f !! 0%nat = Some s0 /\ samples f !! 1%nat = Some s1
    /\ xlines f !! 0%nat = Some x0 /\ xlines f !! 1%nat = Some x1
    /\ ilines f !! 0%nat = Some i0 /\ ilines f !! 1%nat = Some i1
    /\ len header
       = DISK_BLOCK_BYTES - 24
         + len (np_float_to_bytes s0) + len (np_float_to_bytes x0)
         + len (np_float_to_bytes i0)
         + len (np_float_to_bytes (scalar_sub s1 s0))
         + len (np_float_to_bytes (scalar_sub x1 x0))
         + len (np_float_to_bytes (scalar_sub i1 i0)).
Proof.
  unfold make_header. cbv zeta. intros H.
  apply bind_ok_inv in H as (v1 & Hv1%to_bytes_length & H).
  apply bind_ok_inv in H as (f & Hopen & H).
  apply bind_ok_inv in H as (vs & Hvs%to_bytes_length & H).
  apply bind_ok_inv in H as (vx & Hvx%to_bytes_length & H).
  apply bind_ok_inv in H as (vi & Hvi%to_bytes_length & H).
  apply bind_ok_inv in H as (s0 & Hs0 & H).
  apply bind_ok_inv in H as (x0 & Hx0 & H).
  apply bind_ok_inv in H as (i0 & Hi0 & H).
  apply bind_ok_inv in H as (s1 & Hs1 & H). rewrite Hs0, bind_ok in H.
  apply bind_ok_inv in H as (x1 & Hx1 & H). rewrite Hx0, bind_ok in H.
  apply bind_ok_inv in H as (i1 & Hi1 & H). rewrite Hi0, bind_ok in H.
  apply bind_ok_inv in H as (vb & Hvb%to_bytes_length & H).
  injection H as <-.
  exists f, s0, s1, x0, x1, i0, i1. split; [done|].
  apply getitem_ok_lookup in Hs0, Hs1, Hx0, Hx1, Hi0, Hi1; try lia.
  do 6 (split; [done|]).
  unfold len, DISK_BLOCK_BYTES in *. etrans; [slice_length|]. lia.
Qed.

End Header_length.

(** ** The stand-ins at work on these properties *)

Lemma length_voxel_plane (plane : list (list Z)) (n : Z) :
  Forall (fun row => len row = n) plane ->
  len (concat (map (map byte_of_Z) plane)) = len plane * n.
Proof.
  unfold len. induction 1 as [|row plane Hrow _ IH]; [done|].
  cbn [map concat length]. rewrite length_app, length_map. lia.
Qed.

Lemma length_voxel_bytes (a : list (list (list Z))) (shape : Z * Z * Z) :
  @has_shape3 numpy_Z a shape ->
  len (voxel_bytes a) = shape.1.1 * shape.1.2 * shape.2.
Proof.
  destruct shape as [[k m] n]. intros [Hk Hplanes]. simpl in *. subst k.
  unfold voxel_bytes.
  induction Hplanes as [|plane a [Hm Hrows] _ IH]; [done|].
  cbn [map concat]. simpl in Hm, Hrows. unfold len in *.
  rewrite length_app. cbn [length].
  pose proof (length_voxel_plane plane n Hrows) as Hplane.
  unfold len in Hplane. lia.
Qed.

(** The block codec works at every fixed rate. *)
Lemma block_fixed_rate (rate : Z) :
  0 <= rate -> @fixed_rate numpy_Z block_codec rate.
Proof.
  intros Hrate a [[k m] n] Hshape H0 H1 H2. simpl in *.
  pose proof (length_voxel_bytes a (k, m, n) Hshape) as Hlen. simpl in Hlen.
  apply Z.mod_divide in H0 as [a0 ->]; [|lia].
  apply Z.mod_divide in H1 as [a1 ->]; [|lia].
  apply Z.mod_divide in H2 as [a2 ->]; [|lia].
  rewrite !Z.div_mul by lia.
  assert (Hblocks : len (voxel_bytes a) / 64 = a0 * a1 * a2).
  { rewrite Hlen.
    replace (a0 * 4 * (a1 * 4) * (a2 * 4)) with (a0 * a1 * a2 * 64) by ring.
    apply Z.div_mul. lia. }
  rewrite Hblocks.
  assert (0 <= a0 * a1 * a2) by (unfold len in *; lia).
  unfold len. rewrite length_app, length_take, length_replicate. nia.
Qed.

Lemma stream_failure_leaves_unclosed_file_witness :
  exists header,
    make_header (N := numpy_Z) (U := utils_Z)
      (machine (Segy (survey 5)) 1000 1000) "in.segy" 0
    = Ok header
    /\ convert_segy_stream (N := numpy_Z) (U := utils_Z) (C := lossless_codec)
         (machine (Segy (survey 5)) 1000 1000) "in.segy" "out.sz" 0
       = (Err ZeroDivisionError,
          unclosed_file (machine (Segy (survey 5)) 1000 1000) "out.sz"
            header).
Proof.
  assert (Hheader :
            exists header,
              make_header (N := numpy_Z) (U := utils_Z)
                (machine (Segy (survey 5)) 1000 1000) "in.segy" 0
              = Ok header).
  { eexists. vm_compute. reflexivity. }
  destruct Hheader as [header Hheader]. exists header. split; [done|].
  destruct (stream_failure_leaves_unclosed_file (N := numpy_Z) (U := utils_Z)
              (C := lossless_codec) (machine (Segy (survey 5)) 1000 1000)
              "in.segy" "out.sz" 0 header Hheader) as [_ Hzero].
  by destruct (Hzero eq_refl) as [-> _].
Defined.

Lemma queue_bounded_witness :
  (length (producer_turn (N := numpy_Z) (replicate 20 []) []).2 <= 16)%nat
  /\ length (producer_turn (N := numpy_Z) (replicate 20 []) []).1 = 4%nat.
Proof.
  destruct (queue_bounded (N := numpy_Z) (C := lossless_codec)
              (replicate 20 []) [])
    as (Hbound & _ & _); [simpl; lia|].
  split; [exact Hbound|reflexivity].
Defined.


Lemma file_of_whole_blocks_witness :
  exists content,
    convert_segy (N := numpy_Z) (U := utils_Z) (C := block_codec)
      (machine (Segy (survey 5)) 1000 1000) "in.segy" "out.sz" 4 "Stream"
    = (Ok (), write_file (machine (Segy (survey 5)) 1000 1000) "out.sz" content)
    /\ len content mod DISK_BLOCK_BYTES = 0.
Proof.
  destruct (file_of_whole_blocks (N := numpy_Z) (U := utils_Z)
              (C := block_codec) (machine (Segy (survey 5)) 1000 1000)
              "in.segy" "out.sz" 4 "Stream" (survey 5))
    as (content & p & Hconvert & _ & _ & Hblocks).
  - apply block_fixed_rate. lia.
  - reflexivity.
  - apply survey_regular.
  - apply survey_encodable. lia.
  - apply utils_Z_4.
  - vm_compute. discriminate.
  - discriminate.
  - lia.
  - by exists 128.
  - by right.
  - by exists content.
Defined.

Lemma stream_without_memory_guard_witness :
  (convert_segy_inmem (N := numpy_Z) (U := utils_Z) (C := lossless_codec)
     (machine (Segy (survey 5)) 100 100) "in.segy" "out.sz" 4).1
  = Err RuntimeError
  /\ (convert_segy_stream (N := numpy_Z) (U := utils_Z) (C := lossless_codec)
        (machine (Segy (survey 5)) 100 100) "in.segy" "out.sz" 4).1
     = Ok ().
Proof.
  destruct (stream_without_memory_guard (N := numpy_Z) (U := utils_Z)
              (C := lossless_codec) (machine (Segy (survey 5)) 100 100)
              "in.segy" "out.sz" 4 (survey 5))
    as (Hinmem & header & queued & _ & _ & Hstream).
  - reflexivity.
  - apply survey_regular.
  - apply survey_encodable. lia.
  - apply utils_Z_4.
  - lia.
  - discriminate.
  - vm_compute. reflexivity.
  - split; [exact Hinmem|]. by rewrite Hstream.
Defined.

Lemma payload_offset_witness :
  exists header queued content,
    produce (N := numpy_Z) (machine (Segy (survey 5)) 1000 1000) "in.segy" 4
    = (queued, Ok ())
    /\ convert_segy_stream (N := numpy_Z) (U := utils_Z) (C := lossless_codec)
         (machine (Segy (survey 5)) 1000 1000) "in.segy" "out.sz" 4
       = (Ok (),
          write_file (machine (Segy (survey 5)) 1000 1000) "out.sz" content)
    /\ take (Z.to_nat (from_bytes (slice content 0 4) * DISK_BLOCK_BYTES))
         content
       = header
    /\ drop (Z.to_nat (from_bytes (slice content 0 4) * DISK_BLOCK_BYTES))
         content
       = concat ((fun segy_buffer =>
                    compress (Codec := lossless_codec) segy_buffer 4)
                   <$> queued).
Proof.
  destruct (payload_offset (N := numpy_Z) (U := utils_Z)
              (C := lossless_codec) (machine (Segy (survey 5)) 1000 1000)
              "in.segy" "out.sz" 4 (survey 5))
    as (header & data & padded & queued & _ & _ & _ & Hproduce & _
        & content & Hstream & Htake & Hdrop).
  - reflexivity.
  - apply survey_regular.
  - apply survey_encodable. lia.
  - apply utils_Z_4.
  - vm_compute. discriminate.
  - lia.
  - discriminate.
  - by exists header, queued, content.
Defined.

Lemma aligned_volume_unpadded_witness :
  data_padded (N := numpy_Z) (replicate 4 (replicate 4 (replicate 128 7))) 16
  = Ok (replicate 4 (replicate 4 (replicate 128 7))).
Proof.
  apply (aligned_volume_unpadded (N := numpy_Z)
           (replicate 4 (replicate 4 (replicate 128 7))) 16).
  - split; [reflexivity|]. repeat constructor.
  - lia.
  - reflexivity.
  - reflexivity.
  - reflexivity.
Defined.

Lemma slice_segy_rows_witness :
  exists rows,
    slice_segy (H := numpy_Z) (survey 5) 1 = Ok rows
    /\ has_shape2 (H := numpy_Z) rows (3, 2).
Proof.
  destruct (slice_segy_rows (N := numpy_Z) (survey 5) 1)
    as (n & rows & Hn & Hslice & Hshape & _).
  - apply survey_regular.
  - vm_compute. split; discriminate.
  - vm_compute in Hn. injection Hn as <-. by exists rows.
Defined.

Lemma last_line_kept_witness :
  exists rows,
    slice_segy (H := numpy_Z) (survey 50) 39 = Ok rows
    /\ read_correlated_diagonal (H := numpy_Z)
         (machine (Segy (survey 50)) 0 0) "in.segy" 0
       = Ok (Some rows).
Proof.
  apply (last_line_kept (N := numpy_Z) (machine (Segy (survey 50)) 0 0)
           "in.segy" 0 (survey 50)).
  - reflexivity.
  - apply survey_regular.
  - vm_compute. discriminate.
  - vm_compute. discriminate.
Defined.

Lemma diagonals_partition_witness :
  exists numbers,
    diagonal_trace_numbers (20 / 6 - 20 mod 6) 10 6 = Ok numbers
    /\ 20 ∈ numbers.
Proof.
  destruct (diagonals_partition 10 6 20) as (numbers & Hnumbers & Hin & _);
    [lia..|].
  by exists numbers.
Defined.

Lemma diagonal_stride_witness :
  diagonal_trace_numbers (-2) 10 6 = Ok [2; 9; 16; 23]
  /\ 0 <= 16 < 10 * 6 /\ 9 = 2 + 6 + 1.
Proof.
  destruct (diagonal_stride (-2) 10 6 [2; 9; 16; 23]) as [Hbounds Hstride];
    [reflexivity|].
  split; [reflexivity|]. split.
  - apply Hbounds. rewrite !elem_of_cons. auto.
  - by apply (Hstride 0%nat).
Defined.

Lemma header_length_witness :
  exists header,
    make_header (N := numpy_Z) (U := @Build_Utils numpy_Z (little_endian 8))
      (machine (Segy (survey 5)) 0 0) "in.segy" 4
    = Ok header
    /\ len header = 4096 + 24.
Proof.
  assert (Hheader :
            exists header,
              make_header (N := numpy_Z)
                (U := @Build_Utils numpy_Z (little_endian 8))
                (machine (Segy (survey 5)) 0 0) "in.segy" 4
              = Ok header).
  { eexists. vm_compute. reflexivity. }
  destruct Hheader as [header Hheader]. exists header. split; [done|].
  destruct (header_length (N := numpy_Z)
              (U := @Build_Utils numpy_Z (little_endian 8)) _ _ _ _ Hheader)
    as (f & s0 & s1 & x0 & x1 & i0 & i1 & _ & _ & _ & _ & _ & _ & _ & Hlen).
  rewrite Hlen. reflexivity.
Defined.

Lemma buffers_are_padded_volume_witness :
  exists queued padded,
    produce (N := numpy_Z) (machine (Segy (survey 5)) 0 0) "in.segy" 16
    = (queued, Ok ())
    /\ data_padded (N := numpy_Z) (volume (survey 5)) 16 = Ok padded
    /\ concat queued = padded
    /\ len queued = 2.
Proof.
  destruct (buffers_are_padded_volume (N := numpy_Z)
              (machine (Segy (survey 5)) 0 0) "in.segy" 16 (survey 5))
    as (queued & data & padded & Hproduce & Hcube & Hpadded & Hconcat & Hlen).
  - reflexivity.
  - apply survey_regular.
  - vm_compute. discriminate.
  - vm_compute. discriminate.
  - lia.
  - injection Hcube as <-. by exists queued, padded.
Defined.
